(** * ueberzugpp: the X11 canvas (src/canvas/x11/x11.cpp)

    A shallow embedding of [X11Canvas]: construction, the window registry
    ([init] / [clear]), the two draw policies ([draw]), the multiplexer
    window discovery ([get_tmux_window_ids]) and the event dispatcher
    ([handle_events]).

    Calls into collaborators whose code is outside x11.cpp (Xlib, xcb,
    xcb-errors, spdlog, tmux, os, util, X11Window, Image) are either
    recorded in a call trace or read from an explicit description of the
    environment. *)

From Stdlib Require Import ZArith NArith List Ascii String Lia Bool.
From stdpp Require Import base option list gmap sets strings.

Open Scope Z_scope.

(** ** Outcomes of a C++ call *)

Inductive exn : Type :=
| runtime_error (what : string)   (* std::runtime_error *)
| out_of_range                    (* std::out_of_range, thrown by unordered_map::at *)
| system_error.                   (* std::system_error, thrown by std::thread::join *)

Inductive outcome (A : Type) : Type :=
| Returns (a : A)        (* normal return *)
| Throws (e : exn)       (* an exception leaves the function *)
| Terminates             (* std::terminate is called *)
| Undefined              (* undefined behaviour: a null pointer is dereferenced *)
| Hangs.                 (* the call blocks for ever *)

Arguments Returns {A} a.
Arguments Throws {A} e.
Arguments Terminates {A}.
Arguments Undefined {A}.
Arguments Hangs {A}.

#[global] Instance outcome_ret : MRet outcome := @Returns.

#[global] Instance outcome_bind : MBind outcome := λ A B f m,
  match m with
  | Returns a => f a
  | Throws e => Throws e
  | Terminates => Terminates
  | Undefined => Undefined
  | Hangs => Hangs
  end.

(** [try { body } catch (const std::out_of_range&) { handler }] *)
Definition try_catch_out_of_range {A} (body : outcome A) (handler : outcome A) : outcome A :=
  match body with
  | Throws out_of_range => handler
  | other => other
  end.

Definition returned {A} (o : outcome A) : bool :=
  match o with Returns _ => true | _ => false end.

(** ** The windowing system as the constructor sees it *)

Definition xcb_window_t : Type := N.      (* uint32_t *)
Definition pid_t : Type := Z.             (* int *)

Inductive visual_class : Type :=
| StaticGray | GrayScale | StaticColor | PseudoColor | TrueColor | DirectColor.

#[global] Instance visual_class_eq_dec : EqDecision visual_class.
Proof. solve_decision. Defined.

Record XVisualInfo : Type := {
  visualid : N;
  vi_screen : Z;
  vi_depth : Z;
  vi_class : visual_class
}.

Record xcb_screen_t : Type := {
  root : xcb_window_t;
  root_depth : Z
}.

(** The error-description facility of xcb-errors. A C string that may be
    null is an [option]: the library documents that the names for a major
    code and for an error are never null, that the name for a minor code may
    be, and that the extension of an error is null for the core protocol. *)
Record xcb_errors_context_t : Type := {
  xcb_errors_get_name_for_major_code : Z → string;
  xcb_errors_get_name_for_minor_code : Z → Z → option string;
  xcb_errors_get_name_for_error : Z → string * option string
}.

(** The xcb connection: the roots of its setup, the ids
    [xcb_generate_id] hands out, in order, and the context
    [xcb_errors_context_new] builds for it. *)
Record xcb_connection_t : Type := {
  roots : list xcb_screen_t;
  xid : nat → xcb_window_t;
  xcb_errors_context_new : xcb_errors_context_t
}.

(** An Xlib display: its default screen, the xcb connection below it
    (absent when [XGetXCBConnection] returns null) and its visuals. *)
Record Display : Type := {
  dpy_default_screen : Z;
  dpy_xcb : option xcb_connection_t;
  dpy_visuals : list XVisualInfo
}.

(** The X server the environment names, [None] when there is none. *)
Record XEnvironment : Type := {
  x_server : option Display
}.

Definition XDefaultScreen (d : Display) : Z := dpy_default_screen d.
Definition XGetXCBConnection (d : Display) : option xcb_connection_t := dpy_xcb d.

(** Xlib's test that the default screen is one of the screens of the
    display. It reads the screens from the setup of the connection below
    the display, the roots xcb iterates over; a display with no connection
    below it has no setup to test against. *)
Definition legal_default_screen (d : Display) : bool :=
  match XGetXCBConnection d with
  | Some conn =>
      (0 <=? XDefaultScreen d) && (XDefaultScreen d <? Z.of_nat (length (roots conn)))
  | None => true
  end.

(** [XOpenDisplay(nullptr)]: null when no server is reached, and null when
    the default screen is not legal (Xlib makes sure of it before it hands
    out the display). *)
Definition XOpenDisplay (env : XEnvironment) : option Display :=
  match x_server env with
  | Some d => if legal_default_screen d then Some d else None
  | None => None
  end.

(** [XMatchVisualInfo(display, screen, depth, class, &vinfo)]: the first
    visual of the screen with that depth and class; status 0 when none. *)
Definition visual_matches (scr depth : Z) (cls : visual_class) (v : XVisualInfo) : bool :=
  bool_decide (vi_screen v = scr) && bool_decide (vi_depth v = depth)
  && bool_decide (vi_class v = cls).

Definition XMatchVisualInfo (d : Display) (scr depth : Z) (cls : visual_class)
  : option XVisualInfo :=
  List.find (visual_matches scr depth cls) (dpy_visuals d).

(** [xcb_screen_iterator_t]: [data] points at the head of [it_data]
    (past the last root when it is empty), [rem] counts what is left. *)
Record xcb_screen_iterator_t : Type := {
  it_data : list xcb_screen_t;
  it_rem : Z
}.

Definition xcb_setup_roots_iterator (c : xcb_connection_t) : xcb_screen_iterator_t :=
  {| it_data := roots c; it_rem := Z.of_nat (length (roots c)) |}.

Definition xcb_screen_next (it : xcb_screen_iterator_t) : xcb_screen_iterator_t :=
  {| it_data := tail (it_data it); it_rem := it_rem it - 1 |}.

(** The loop of the constructor:
    [for (n = default_screen; iter.rem > 0 && n > 0; --n) xcb_screen_next(&iter);]
    The roots still ahead bound the number of iterations. *)
Fixpoint walk_screens (steps : nat) (it : xcb_screen_iterator_t) (screen_num : Z)
  : xcb_screen_iterator_t :=
  match steps with
  | O => it
  | S k =>
      if (0 <? it_rem it) && (0 <? screen_num)
      then walk_screens k (xcb_screen_next it) (screen_num - 1)
      else it
  end.

Definition select_screen (c : xcb_connection_t) (default_screen : Z) : option xcb_screen_t :=
  let it := xcb_setup_roots_iterator c in
  head (it_data (walk_screens (length (roots c)) it default_screen)).

(** ** Collaborators of the canvas *)

(** Modelled from the spec: the Image abstraction (image.hpp is not among
    the sources): whether the content is animated, the mutator that
    advances to the next frame, and the delay of the current frame in
    milliseconds. *)
Class ImageOps (Image : Type) : Type := {
  is_animated : Image → bool;
  next_frame : Image → Image;
  frame_delay : Image → Z
}.

Record Terminal : Type := { x11_wid : xcb_window_t }.

(** Modelled from the spec: the layout dimensions (dimensions.hpp is not
    among the sources); x11.cpp reads only [terminal.x11_wid], the other
    members travel as an opaque payload. *)
Record Dimensions : Type := {
  terminal : Terminal;
  layout : list Z
}.

(** Modelled from the spec: a Window (window.hpp is not among the
    sources) is constructed from its own id, its parent id and the
    dimensions (connection, screen, visual and image are the canvas's). *)
Record X11Window : Type := {
  win_id : xcb_window_t;
  win_parent : xcb_window_t;
  win_dimensions : Dimensions
}.

Inductive log_level : Type := LvlDebug | LvlInfo | LvlError.

Inductive log_arg : Type :=
| ArgStr (s : string)
| ArgNum (n : Z).

(** Calls the canvas makes into its collaborators, in program order. *)
Inductive call : Type :=
| GenerateFrame (w : xcb_window_t)      (* window->generate_frame() *)
| WindowDraw (w : xcb_window_t)         (* window->draw() *)
| WindowShow (w : xcb_window_t)         (* window->show() *)
| WindowHide (w : xcb_window_t)         (* window->hide() *)
| NextFrame                             (* image->next_frame() *)
| SleepFor (ms : Z)                     (* std::this_thread::sleep_for *)
| SpawnThread (name : string)           (* std::thread(...) *)
| Log (lvl : log_level) (fmt : string) (args : list log_arg).

#[global] Instance log_level_eq_dec : EqDecision log_level.
Proof. solve_decision. Defined.
#[global] Instance log_arg_eq_dec : EqDecision log_arg.
Proof. solve_decision. Defined.
#[global] Instance call_eq_dec : EqDecision call.
Proof. solve_decision. Defined.

(** A [std::thread] member: not joinable, or joinable with its function
    at the test of its loop or already returned. *)
Inductive thread : Type := NoThread | Looping | Finished.

Definition joinable (t : thread) : bool :=
  match t with NoThread => false | _ => true end.

(** What [tmux], [X11Util] and [util] report when [init] asks. *)
Record Collaborators : Type := {
  get_client_pids : option (list pid_t);          (* tmux::get_client_pids() *)
  get_pid_window_map : gmap pid_t xcb_window_t;   (* xutil->get_pid_window_map() *)
  get_process_tree : pid_t → list pid_t           (* util::get_process_tree(pid) *)
}.

(** What another thread does between two steps of a loop: nothing, the
    application raises its process-wide [Application::stop_flag_], or the
    caller's [clear()] executes [can_draw.store(false)]. *)
Inductive interference : Type := Quiet | RaiseStop | LowerCanDraw.

Inductive thread_status : Type := StillLooping | LoopExited.

(** [xcb_generic_event_t] with the members x11.cpp reads through its two
    casts: [error_code], [resource_id], [minor_code] and [major_code] of
    [xcb_generic_error_t]; the [window] of [xcb_expose_event_t] lies over
    [resource_id]. *)
Record xcb_generic_event_t : Type := {
  response_type : Z;
  error_code : Z;
  sequence : Z;
  resource_id : N;
  minor_code : Z;
  major_code : Z
}.

Definition expose_window (event : xcb_generic_event_t) : xcb_window_t := resource_id event.

Definition event_mask : Z := 0x80.
Definition XCB_EXPOSE : Z := 12.

(** One turn of the outer loop of [handle_events]: what happened since the
    last turn, whether [os::wait_for_data_on_fd] saw data, and the events
    [xcb_poll_for_event] then returns before it returns null. *)
Record wake : Type := {
  before : interference;
  data_ready : bool;
  queue : list xcb_generic_event_t
}.

(** [unordered_map::insert]: no effect when the key is present. *)
Definition map_insert_new {V} (k : xcb_window_t) (v : V) (m : gmap xcb_window_t V)
  : gmap xcb_window_t V :=
  match m !! k with
  | Some _ => m
  | None => <[k := v]> m
  end.

(** [unordered_map::at]: throws [std::out_of_range] when the key is absent. *)
Definition map_at {V} (m : gmap xcb_window_t V) (k : xcb_window_t) : outcome V :=
  match m !! k with
  | Some v => Returns v
  | None => Throws out_of_range
  end.

(** The number of replacement fields in a format string of fmt. *)
Fixpoint placeholders (fmt : string) : nat :=
  match fmt with
  | String "{"%char (String "}"%char rest) => S (placeholders rest)
  | String _ rest => placeholders rest
  | EmptyString => O
  end.

(** ** The canvas *)

Section Canvas.
Context {Image : Type} `{!ImageOps Image}.

(** The members of [X11Canvas]. [xids_issued] is the state of the
    connection that [xcb_generate_id] advances; [screen] is
    [screen_iter.data], [None] when the iterator went past the last
    root; [image] is the [std::unique_ptr<Image>], [None] when null. *)
Record X11Canvas : Type := {
  display : Display;
  default_screen : Z;
  connection : xcb_connection_t;
  xids_issued : nat;
  screen : option xcb_screen_t;
  vinfo : XVisualInfo;
  windows : gmap xcb_window_t X11Window;
  image : option Image;
  can_draw : bool;
  draw_thread : thread;
  event_handler : thread
}.

Definition with_windows (ws : gmap xcb_window_t X11Window) (c : X11Canvas) : X11Canvas :=
  {| display := display c; default_screen := default_screen c;
     connection := connection c; xids_issued := xids_issued c;
     screen := screen c; vinfo := vinfo c; windows := ws; image := image c;
     can_draw := can_draw c; draw_thread := draw_thread c;
     event_handler := event_handler c |}.

Definition with_image (i : option Image) (c : X11Canvas) : X11Canvas :=
  {| display := display c; default_screen := default_screen c;
     connection := connection c; xids_issued := xids_issued c;
     screen := screen c; vinfo := vinfo c; windows := windows c; image := i;
     can_draw := can_draw c; draw_thread := draw_thread c;
     event_handler := event_handler c |}.

Definition with_can_draw (b : bool) (c : X11Canvas) : X11Canvas :=
  {| display := display c; default_screen := default_screen c;
     connection := connection c; xids_issued := xids_issued c;
     screen := screen c; vinfo := vinfo c; windows := windows c;
     image := image c; can_draw := b; draw_thread := draw_thread c;
     event_handler := event_handler c |}.

Definition with_draw_thread (t : thread) (c : X11Canvas) : X11Canvas :=
  {| display := display c; default_screen := default_screen c;
     connection := connection c; xids_issued := xids_issued c;
     screen := screen c; vinfo := vinfo c; windows := windows c;
     image := image c; can_draw := can_draw c; draw_thread := t;
     event_handler := event_handler c |}.

Definition with_xids_issued (n : nat) (c : X11Canvas) : X11Canvas :=
  {| display := display c; default_screen := default_screen c;
     connection := connection c; xids_issued := n;
     screen := screen c; vinfo := vinfo c; windows := windows c;
     image := image c; can_draw := can_draw c; draw_thread := draw_thread c;
     event_handler := event_handler c |}.

(** *** X11Canvas::X11Canvas (lines 29-65) *)

(** The constructor, without the [ENABLE_OPENGL] block. The initial value
    of [can_draw] is declared in x11.hpp, which is not among the sources:
    it is taken to be true, the value [clear] leaves for the next [init]. *)
Definition construct (env : XEnvironment) : outcome (X11Canvas * list call) :=
  match XOpenDisplay env with
  | None => Throws (runtime_error "Can't open X11 display")
  | Some dpy =>
      let default_screen := XDefaultScreen dpy in
      match XGetXCBConnection dpy with
      | None => Throws (runtime_error "Can't get xcb connection from display")
      | Some conn =>
          let screen := select_screen conn default_screen in
          let depth := 32 in
          match XMatchVisualInfo dpy default_screen depth TrueColor with
          | None => Throws (runtime_error "Can't find visual")
          | Some vinfo =>
              Returns
                ({| display := dpy; default_screen := default_screen;
                    connection := conn; xids_issued := O;
                    screen := screen; vinfo := vinfo;
                    windows := ∅; image := None; can_draw := true;
                    draw_thread := NoThread; event_handler := Looping |},
                 [SpawnThread "event_handler"; Log LvlInfo "Canvas created" []])
          end
      end
  end.

(** *** X11Canvas::draw (lines 81-98) *)

(** [for (const auto& [wid, window]: windows) window->f();] The order of
    an [unordered_map] is unspecified; the model visits the keys in the
    order of [map_to_list]. *)
Definition for_each_window (f : xcb_window_t → call) (c : X11Canvas) : list call :=
  (λ entry, f entry.1) <$> map_to_list (windows c).

(** The body of the loop of the draw thread (lines 91-95). *)
Definition draw_thread_body (c : X11Canvas) : outcome (X11Canvas * list call) :=
  let frames := for_each_window GenerateFrame c in
  match image c with
  | None => Undefined
  | Some img =>
      let img := next_frame img in
      Returns (with_image (Some img) c,
               frames ++ [NextFrame; SleepFor (frame_delay img)])
  end.

Definition interfere_canvas (i : interference) (c : X11Canvas) : X11Canvas :=
  match i with
  | LowerCanDraw => with_can_draw false c
  | Quiet | RaiseStop => c
  end.

Definition interfere_stop (i : interference) (stop_flag_ : bool) : bool :=
  match i with
  | RaiseStop => true
  | Quiet | LowerCanDraw => stop_flag_
  end.

(** The function of the draw thread, [while (can_draw.load()) { body }]
    (lines 90-96), run against what the other threads do before each test
    of the flag. When the schedule is used up the thread is still in its
    loop. *)
Fixpoint draw_thread_loop (schedule : list interference) (c : X11Canvas)
  : outcome (X11Canvas * list call * thread_status) :=
  match schedule with
  | [] => Returns (c, [], StillLooping)
  | i :: rest =>
      let c := interfere_canvas i c in
      if can_draw c then
        '(c, frames) ← draw_thread_body c;
        '(c, more, status) ← draw_thread_loop rest c;
        Returns (c, frames ++ more, status)
      else Returns (c, [], LoopExited)
  end.

Definition draw (c : X11Canvas) : outcome (X11Canvas * list call) :=
  match image c with
  | None => Undefined                       (* image->is_animated() on null *)
  | Some img =>
      if negb (is_animated img) then
        Returns (c, for_each_window GenerateFrame c)
      else if joinable (draw_thread c) then
        Terminates                          (* assignment to a joinable std::thread *)
      else
        Returns (with_draw_thread Looping c, [SpawnThread "draw_thread"])
  end.

(** *** X11Canvas::show, X11Canvas::hide (lines 100-112) *)

Definition show (c : X11Canvas) : list call := for_each_window WindowShow c.
Definition hide (c : X11Canvas) : list call := for_each_window WindowHide c.

(** *** X11Canvas::get_tmux_window_ids (lines 180-197) *)

Definition get_tmux_window_ids (os : Collaborators) (windows : gset xcb_window_t)
  : gset xcb_window_t :=
  match get_client_pids os with
  | None => windows
  | Some pids =>
      let pid_window_map := get_pid_window_map os in
      foldl (λ windows pid,
               foldl (λ windows ppid,
                        match pid_window_map !! ppid with
                        | None => windows
                        | Some win => {[win]} ∪ windows
                        end)
                     windows (get_process_tree os pid))
            windows pids
  end.

(** *** X11Canvas::init (lines 165-178) *)

(** The lambda of [init]: one fresh id and one Window per parent. *)
Definition create_window (dimensions : Dimensions) (c : X11Canvas) (parent : xcb_window_t)
  : X11Canvas :=
  let window_id := xid (connection c) (xids_issued c) in
  let c := with_xids_issued (S (xids_issued c)) c in
  let window := {| win_id := window_id; win_parent := parent;
                   win_dimensions := dimensions |} in
  with_windows (map_insert_new window_id window (windows c)) c.

(** [parent_ids] always holds the terminal's window, so the lambda runs
    and [*image] is evaluated: a null [new_image] is dereferenced. *)
Definition init (os : Collaborators) (dimensions : Dimensions)
    (new_image : option Image) (c : X11Canvas) : outcome (X11Canvas * list call) :=
  let c := with_image new_image c in
  let parent_ids := get_tmux_window_ids os {[ x11_wid (terminal dimensions) ]} in
  match new_image with
  | None => Undefined
  | Some _ =>
      Returns (foldl (create_window dimensions) c (elements parent_ids),
               [Log LvlDebug "Initializing canvas" []])
  end.

(** *** X11Canvas::clear (lines 199-208) *)

(** [draw_thread.join()]: the caller waits until the function of the
    thread, which stands at the test of its loop, has returned; [patience]
    bounds the turns of the loop the model waits for. *)
Definition join (patience : nat) (c : X11Canvas) : outcome (X11Canvas * list call) :=
  match draw_thread c with
  | NoThread => Throws system_error
  | Finished => Returns (with_draw_thread NoThread c, [])
  | Looping =>
      '(c, frames, status) ← draw_thread_loop (replicate patience Quiet) c;
      match status with
      | LoopExited => Returns (with_draw_thread NoThread c, frames)
      | StillLooping => Hangs
      end
  end.

Definition clear (patience : nat) (c : X11Canvas) : outcome (X11Canvas * list call) :=
  let c := with_can_draw false c in
  '(c, frames) ← (if joinable (draw_thread c) then join patience c
                  else Returns (c, []));
  let c := with_windows ∅ c in
  let c := with_image None c in
  let c := with_can_draw true c in
  Returns (c, frames).

(** *** X11Canvas::handle_events (lines 114-163) *)

(** The body of the inner loop: the [switch] on the masked type code.
    x11.cpp does not test the result of [xcb_errors_context_new]; the
    context is taken as built. *)
Definition handle_event (c : X11Canvas) (event : xcb_generic_event_t)
  : outcome (list call) :=
  let x11_event := Z.land (response_type event) (Z.lnot event_mask) in
  if x11_event =? 0 then
    let err_ctx := xcb_errors_context_new (connection c) in
    let major := xcb_errors_get_name_for_major_code err_ctx (major_code event) in
    let minor := xcb_errors_get_name_for_minor_code err_ctx
                   (major_code event) (minor_code event) in
    let '(error, extension) := xcb_errors_get_name_for_error err_ctx (error_code event) in
    Returns [Log LvlError "XCB: {}:{}, {}:{}, resource {} sequence {}"
               [ArgStr error; ArgStr (default "no_extension" extension);
                ArgStr major; ArgStr (default "no_minor" minor);
                ArgNum (Z.of_N (resource_id event)); ArgNum (sequence event)]]
  else if x11_event =? XCB_EXPOSE then
    let window := expose_window event in
    drawn ← try_catch_out_of_range
               (_ ← map_at (windows c) window; Returns [WindowDraw window])
               (Returns []);
    Returns (Log LvlDebug "Received expose event for window {}"
               [ArgNum (Z.of_N window)] :: drawn)
  else
    Returns [Log LvlDebug "Received unknown event {}" [ArgNum x11_event]].

(** The inner loop (lines 129-161): every queued event in turn. *)
Fixpoint drain_events (c : X11Canvas) (events : list xcb_generic_event_t)
  : outcome (list call) :=
  match events with
  | [] => Returns []
  | event :: rest =>
      logged ← handle_event c event;
      more ← drain_events c rest;
      Returns (logged ++ more)
  end.

(** The outer loop (lines 118-162). When the wakes are used up the
    thread is still in its loop. *)
Fixpoint handle_events (stop_flag_ : bool) (c : X11Canvas) (wakes : list wake)
  : outcome (list call * thread_status) :=
  match wakes with
  | [] => Returns ([], StillLooping)
  | w :: rest =>
      let stop_flag_ := interfere_stop (before w) stop_flag_ in
      let c := interfere_canvas (before w) c in
      if stop_flag_ then Returns ([], LoopExited)
      else if negb (data_ready w) then handle_events stop_flag_ c rest
      else
        logged ← drain_events c (queue w);
        '(more, status) ← handle_events stop_flag_ c rest;
        Returns (logged ++ more, status)
  end.

(** The function of the event-handler thread (lines 59-63). *)
Definition event_handler_main (stop_flag_ : bool) (c : X11Canvas) (wakes : list wake)
  : outcome (list call * thread_status) :=
  '(logged, status) ← handle_events stop_flag_ c wakes;
  let stopped := match status with
                 | LoopExited => [Log LvlDebug "Stopped event handler" []]
                 | StillLooping => []
                 end in
  Returns (Log LvlDebug "Started event handler" [] :: logged ++ stopped, status).

End Canvas.

Arguments X11Canvas Image : clear implicits.


(** ** A concrete world, on which the model can be run *)

(** An image with a frame cursor over its per-frame delays. *)
Record Gif : Type := {
  gif_animated : bool;
  gif_cursor : nat;
  gif_delays : list Z
}.

#[global] Instance Gif_ops : ImageOps Gif := {|
  is_animated := gif_animated;
  next_frame g := {| gif_animated := gif_animated g;
                     gif_cursor := S (gif_cursor g) mod length (gif_delays g);
                     gif_delays := gif_delays g |};
  frame_delay g := nth (gif_cursor g) (gif_delays g) 0
|}.

Definition still_image : Gif :=
  {| gif_animated := false; gif_cursor := 0; gif_delays := [0] |}.
Definition animated_image : Gif :=
  {| gif_animated := true; gif_cursor := 0; gif_delays := [40; 40; 80] |}.

Definition sample_errors : xcb_errors_context_t := {|
  xcb_errors_get_name_for_major_code major :=
    if major =? 1 then "CreateWindow" else if major =? 139 then "RENDER" else "Unknown";
  xcb_errors_get_name_for_minor_code major minor :=
    if (major =? 139) && (minor =? 4) then Some "CreatePicture" else None;
  xcb_errors_get_name_for_error code :=
    if code =? 3 then ("Window", None)
    else if code =? 143 then ("Picture", Some "RENDER")
    else ("Unknown", None)
|}.

Definition sample_connection : xcb_connection_t := {|
  roots := [{| root := 1980%N; root_depth := 24 |}; {| root := 1981%N; root_depth := 24 |}];
  xid k := (N.of_nat k + 0x2400000)%N;
  xcb_errors_context_new := sample_errors
|}.

Definition sample_visuals : list XVisualInfo :=
  [ {| visualid := 0x21; vi_screen := 0; vi_depth := 24; vi_class := TrueColor |};
    {| visualid := 0x5c; vi_screen := 0; vi_depth := 32; vi_class := DirectColor |};
    {| visualid := 0x5d; vi_screen := 0; vi_depth := 32; vi_class := TrueColor |} ].

Definition sample_display : Display :=
  {| dpy_default_screen := 0; dpy_xcb := Some sample_connection;
     dpy_visuals := sample_visuals |}.

Definition sample_env : XEnvironment := {| x_server := Some sample_display |}.
Definition no_server : XEnvironment := {| x_server := None |}.
Definition no_xcb : XEnvironment :=
  {| x_server := Some {| dpy_default_screen := 0; dpy_xcb := None;
                             dpy_visuals := sample_visuals |} |}.
Definition bad_screen : XEnvironment :=
  {| x_server := Some {| dpy_default_screen := 2; dpy_xcb := Some sample_connection;
                         dpy_visuals := sample_visuals |} |}.
Definition no_visual : XEnvironment :=
  {| x_server := Some {| dpy_default_screen := 0; dpy_xcb := Some sample_connection;
                             dpy_visuals := take 2 sample_visuals |} |}.

(** Two tmux clients whose process chains meet the terminals 0x700001
    (through two different processes) and 0x900001. *)
Definition sample_tmux : Collaborators := {|
  get_client_pids := Some [100; 200];
  get_pid_window_map := {[ 50 := 0x700001%N; 60 := 0x900001%N; 10 := 0x700001%N ]};
  get_process_tree pid :=
    if pid =? 100 then [100; 50; 10; 1]
    else if pid =? 200 then [200; 60; 10; 1]
    else [pid]
|}.

Definition no_tmux : Collaborators := {|
  get_client_pids := None;
  get_pid_window_map := {[ 50 := 0x700001%N ]};
  get_process_tree pid := [pid]
|}.

Definition sample_dimensions : Dimensions :=
  {| terminal := {| x11_wid := 0x500001%N |}; layout := [0; 0; 80; 24] |}.

(** The canvas a call returned, [fallback] when it did not return. *)
Definition canvas_of {Image} (o : outcome (X11Canvas Image * list call))
    (fallback : X11Canvas Image) : X11Canvas Image :=
  match o with
  | Returns (c, _) => c
  | _ => fallback
  end.

Definition calls_of {A} (o : outcome (A * list call)) : list call :=
  match o with
  | Returns (_, calls) => calls
  | _ => []
  end.

Definition blank_canvas : X11Canvas Gif :=
  {| display := sample_display; default_screen := 0; connection := sample_connection;
     xids_issued := 0; screen := None; vinfo := {| visualid := 0; vi_screen := 0;
     vi_depth := 0; vi_class := TrueColor |}; windows := ∅; image := None;
     can_draw := true; draw_thread := NoThread; event_handler := NoThread |}.

Definition fresh_canvas : X11Canvas Gif := canvas_of (construct sample_env) blank_canvas.

Definition still_canvas : X11Canvas Gif :=
  canvas_of (init sample_tmux sample_dimensions (Some still_image) fresh_canvas) blank_canvas.

Definition animated_canvas : X11Canvas Gif :=
  canvas_of (init no_tmux sample_dimensions (Some animated_image) fresh_canvas) blank_canvas.

Definition animating_canvas : X11Canvas Gif := canvas_of (draw animated_canvas) blank_canvas.

Definition error_event : xcb_generic_event_t :=
  {| response_type := 0; error_code := 3; sequence := 77; resource_id := 0x2400009;
     minor_code := 0; major_code := 1 |}.

Definition render_error_event : xcb_generic_event_t :=
  {| response_type := 0; error_code := 143; sequence := 78; resource_id := 0x240000a;
     minor_code := 4; major_code := 139 |}.

Definition stale_expose_event : xcb_generic_event_t :=
  {| response_type := 0x8c; error_code := 0; sequence := 79; resource_id := 0x2400063;
     minor_code := 0; major_code := 0 |}.

Definition live_expose_event : xcb_generic_event_t :=
  {| response_type := 12; error_code := 0; sequence := 80; resource_id := 0x2400000;
     minor_code := 0; major_code := 0 |}.

(** ** Teardown *)

Section Teardown.
Context {Image : Type} `{!ImageOps Image}.

Definition with_event_handler (t : thread) (c : X11Canvas Image) : X11Canvas Image :=
  {| display := display c; default_screen := default_screen c;
     connection := connection c; xids_issued := xids_issued c;
     screen := screen c; vinfo := vinfo c; windows := windows c;
     image := image c; can_draw := can_draw c; draw_thread := draw_thread c;
     event_handler := t |}.

(** [event_handler.join()]: the caller waits until the function of the
    event-handler thread (lines 59-63) has returned, that is until
    [handle_events] has left its loop and the closing line is logged; the
    wakes are the turns of the loop the model waits for. *)
Definition join_event_handler (stop_flag_ : bool) (wakes : list wake) (c : X11Canvas Image)
  : outcome (X11Canvas Image * list call) :=
  match event_handler c with
  | NoThread => Throws system_error
  | Finished => Returns (with_event_handler NoThread c, [])
  | Looping =>
      '(logged, status) ← handle_events stop_flag_ c wakes;
      match status with
      | LoopExited =>
          Returns (with_event_handler NoThread c,
                   logged ++ [Log LvlDebug "Stopped event handler" []])
      | StillLooping => Hangs
      end
  end.

(** X11Canvas::~X11Canvas (lines 67-79), without the [ENABLE_OPENGL]
    block. It returns, having closed the display, only after both joins
    have; the calls are those the two threads made while it waited. *)
Definition destructor (stop_flag_ : bool) (wakes : list wake) (patience : nat)
    (c : X11Canvas Image) : outcome (list call) :=
  '(c, logged) ← (if joinable (event_handler c)
                  then join_event_handler stop_flag_ wakes c
                  else Returns (c, []));
  '(c, frames) ← (if joinable (draw_thread c) then join patience c
                  else Returns (c, []));
  Returns (logged ++ frames).                     (* XCloseDisplay(display) *)

End Teardown.

(** The sleeps among the calls, in order. *)
Definition sleeps (calls : list call) : list Z :=
  omap (λ k, match k with SleepFor ms => Some ms | _ => None end) calls.

Definition masked_type (event : xcb_generic_event_t) : Z :=
  Z.land (response_type event) (Z.lnot event_mask).

(** The event as a client's SendEvent request delivers it: the high bit
    of the type code set. *)
Definition sent_event (event : xcb_generic_event_t) : xcb_generic_event_t :=
  {| response_type := Z.lor (response_type event) event_mask;
     error_code := error_code event; sequence := sequence event;
     resource_id := resource_id event; minor_code := minor_code event;
     major_code := major_code event |}.

Definition sample_wakes : list wake :=
  [ {| before := Quiet; data_ready := false; queue := [] |};
    {| before := Quiet; data_ready := true;
       queue := [live_expose_event; error_event; stale_expose_event] |};
    {| before := RaiseStop; data_ready := true; queue := [live_expose_event] |};
    {| before := Quiet; data_ready := true; queue := [render_error_event] |} ].

Definition key_event : xcb_generic_event_t :=
  {| response_type := 2; error_code := 0; sequence := 81; resource_id := 0x2400000;
     minor_code := 0; major_code := 0 |}.

(** The levels of the lines logged among the calls, in order. *)
Definition log_levels (calls : list call) : list log_level :=
  omap (λ k, match k with Log lvl _ _ => Some lvl | _ => None end) calls.

Definition cleared_canvas : X11Canvas Gif := canvas_of (clear 1 animating_canvas) blank_canvas.

Definition restarted_canvas : X11Canvas Gif :=
  canvas_of (init no_tmux sample_dimensions (Some animated_image)
               (canvas_of (clear 0 still_canvas) blank_canvas)) blank_canvas.
(** * Properties *)

(** ** The target-window set *)

Section Resolver.
Variable os : Collaborators.

(** The inner loop of [get_tmux_window_ids] over one process chain. *)
Local Abbreviation add_chain :=
  (foldl (λ (windows : gset xcb_window_t) (ppid : pid_t),
            match get_pid_window_map os !! ppid with
            | None => windows
            | Some win => {[win]} ∪ windows
            end)).

Lemma elem_of_add_chain (ppids : list pid_t) (windows : gset xcb_window_t) (w : xcb_window_t) :
  w ∈ add_chain windows ppids ↔
  w ∈ windows ∨ ∃ ppid, ppid ∈ ppids ∧ get_pid_window_map os !! ppid = Some w.
Proof.
  revert windows.
  induction ppids as [|p ppids IH]; intros windows; simpl.
  - split; [auto|]. intros [?|(ppid & Hin & _)]; [done|]. by apply elem_of_nil in Hin.
  - rewrite IH. destruct (get_pid_window_map os !! p) as [win|] eqn:Hp.
    + rewrite elem_of_union, elem_of_singleton. split.
      * intros [[->|?]|(ppid & Hin & Hw)]; [right|by left|right].
        -- exists p. split; [apply list_elem_of_here|done].
        -- exists ppid. split; [by apply list_elem_of_further|done].
      * intros [?|(ppid & Hin & Hw)]; [by left; right|].
        apply elem_of_cons in Hin as [->|Hin].
        -- left; left. congruence.
        -- right. by exists ppid.
    + split.
      * intros [?|(ppid & Hin & Hw)]; [by left|right].
        exists ppid. split; [by apply list_elem_of_further|done].
      * intros [?|(ppid & Hin & Hw)]; [by left|].
        apply elem_of_cons in Hin as [->|Hin]; [congruence|].
        right. by exists ppid.
Qed.

Lemma elem_of_add_chains (pids : list pid_t) (windows : gset xcb_window_t) (w : xcb_window_t) :
  w ∈ foldl (λ windows pid, add_chain windows (get_process_tree os pid)) windows pids ↔
  w ∈ windows ∨ ∃ pid ppid, pid ∈ pids ∧ ppid ∈ get_process_tree os pid
                            ∧ get_pid_window_map os !! ppid = Some w.
Proof.
  revert windows. induction pids as [|p pids IH]; intros windows; simpl.
  - split; [auto|]. intros [?|(pid & ppid & Hin & _)]; [done|]. by apply elem_of_nil in Hin.
  - rewrite IH, elem_of_add_chain. split.
    + intros [[?|(ppid & Hin & Hw)]|(pid & ppid & Hin & Hc & Hw)].
      * by left.
      * right. exists p, ppid. split; [apply list_elem_of_here|done].
      * right. exists pid, ppid. split; [by apply list_elem_of_further|done].
    + intros [?|(pid & ppid & Hin & Hc & Hw)]; [by left; left|].
      apply elem_of_cons in Hin as [->|Hin].
      * left; right. by exists ppid.
      * right. by exists pid, ppid.
Qed.

Lemma terminal_window_resolved (terminal_wid : xcb_window_t) :
  terminal_wid ∈ get_tmux_window_ids os {[terminal_wid]}.
Proof.
  unfold get_tmux_window_ids. destruct (get_client_pids os) as [pids|].
  - apply elem_of_add_chains. left. by apply elem_of_singleton.
  - by apply elem_of_singleton.
Qed.

(** C2: the target-window set resolved for a terminal window always holds
    that window; without a multiplexer it is exactly the singleton of it;
    with one, its other members are exactly the windows the pid-to-window
    map assigns to a process in the chain of some client pid. Being a set,
    it holds each of them once. *)
Theorem resolve_target_windows (terminal_wid : xcb_window_t) :
  let resolved := get_tmux_window_ids os {[terminal_wid]} in
  terminal_wid ∈ resolved
  ∧ (get_client_pids os = None → resolved = {[terminal_wid]})
  ∧ (∀ pids, get_client_pids os = Some pids →
       ∀ w, w ∈ resolved ↔
            w = terminal_wid
            ∨ ∃ pid ppid, pid ∈ pids ∧ ppid ∈ get_process_tree os pid
                          ∧ get_pid_window_map os !! ppid = Some w)
  ∧ NoDup (elements resolved).
Proof.
  simpl. unfold get_tmux_window_ids.
  destruct (get_client_pids os) as [pids|] eqn:Hpids.
  - split; [|split; [done|split]].
    + apply elem_of_add_chains. left. by apply elem_of_singleton.
    + intros pids' [= <-] w.
      by rewrite elem_of_add_chains, elem_of_singleton.
    + apply NoDup_elements.
  - split; [by apply elem_of_singleton|split; [done|split; [done|]]].
    apply NoDup_elements.
Qed.

End Resolver.

(** ** Construction *)

Lemma walk_screens_data (steps : nat) (data : list xcb_screen_t) (rem n : Z) :
  rem = Z.of_nat (length data) → (length data ≤ steps)%nat → 0 ≤ n →
  it_data (walk_screens steps {| it_data := data; it_rem := rem |} n)
  = drop (Z.to_nat n) data.
Proof.
  revert data rem n. induction steps as [|k IH]; intros data rem n Hrem Hlen Hn.
  - destruct data; [|simpl in Hlen; lia]. by rewrite drop_nil.
  - cbn [walk_screens it_rem].
    destruct (0 <? rem) eqn:Hr; destruct (0 <? n) eqn:Hpos; cbn [andb].
    + apply Z.ltb_lt in Hr, Hpos. destruct data as [|s data]; [simpl in Hrem; lia|].
      unfold xcb_screen_next. cbn [it_data it_rem tail].
      rewrite IH; [|simpl in Hrem; lia|simpl in Hlen; lia|lia].
      by replace (Z.to_nat n) with (S (Z.to_nat (n - 1))) by lia.
    + apply Z.ltb_ge in Hpos. by replace n with 0 by lia.
    + apply Z.ltb_ge in Hr. destruct data; [|simpl in Hrem; lia]. by rewrite drop_nil.
    + apply Z.ltb_ge in Hpos. by replace n with 0 by lia.
Qed.

Lemma select_screen_default (conn : xcb_connection_t) (n : Z) :
  0 ≤ n → select_screen conn n = roots conn !! Z.to_nat n.
Proof.
  intros Hn. unfold select_screen, xcb_setup_roots_iterator.
  rewrite walk_screens_data by (done || lia).
  rewrite head_lookup, lookup_drop. f_equal. lia.
Qed.

Lemma XMatchVisualInfo_None (d : Display) (scr depth : Z) (cls : visual_class) :
  XMatchVisualInfo d scr depth cls = None ↔
  ∀ v, v ∈ dpy_visuals d → ¬ (vi_screen v = scr ∧ vi_depth v = depth ∧ vi_class v = cls).
Proof.
  unfold XMatchVisualInfo. induction (dpy_visuals d) as [|v vs IH]; simpl.
  - split; [|done]. intros _ v Hin. by apply elem_of_nil in Hin.
  - destruct (visual_matches scr depth cls v) eqn:Hm.
    + split; [done|]. intros Hall. exfalso. apply (Hall v); [apply list_elem_of_here|].
      unfold visual_matches in Hm.
      apply andb_prop in Hm as [Hm Hc]. apply andb_prop in Hm as [Hs Hd].
      apply bool_decide_eq_true in Hs, Hd, Hc. done.
    + rewrite IH. split.
      * intros Hall w Hin. apply elem_of_cons in Hin as [->|Hin]; [|by apply Hall].
        intros (Hs & Hd & Hc). unfold visual_matches in Hm.
        rewrite !bool_decide_eq_true_2 in Hm by done. done.
      * intros Hall w Hin. apply Hall. by apply list_elem_of_further.
Qed.

Lemma XMatchVisualInfo_Some (d : Display) (scr depth : Z) (cls : visual_class) (v : XVisualInfo) :
  XMatchVisualInfo d scr depth cls = Some v →
  v ∈ dpy_visuals d ∧ vi_screen v = scr ∧ vi_depth v = depth ∧ vi_class v = cls.
Proof.
  unfold XMatchVisualInfo. intros Hf. apply find_some in Hf as [Hin Hm].
  split; [by apply list_elem_of_In|].
  unfold visual_matches in Hm.
  apply andb_prop in Hm as [Hm Hc]. apply andb_prop in Hm as [Hs Hd].
  apply bool_decide_eq_true in Hs, Hd, Hc. done.
Qed.

Section Construction.
Context {Image : Type}.

Lemma constructed_canvas_is_fresh (env : XEnvironment) (c : X11Canvas Image) calls :
  construct env = Returns (c, calls) →
  windows c = ∅ ∧ image c = None ∧ can_draw c = true ∧ draw_thread c = NoThread.
Proof.
  unfold construct. destruct (XOpenDisplay env) as [d|]; [|done].
  destruct (XGetXCBConnection d) as [conn|]; [|done].
  destruct (XMatchVisualInfo d (XDefaultScreen d) 32 TrueColor) as [v|]; [|done].
  by intros [= <- <-].
Qed.

Lemma XOpenDisplay_None (env : XEnvironment) :
  XOpenDisplay env = None ↔
  x_server env = None
  ∨ ∃ d conn, x_server env = Some d ∧ XGetXCBConnection d = Some conn
              ∧ ¬ (0 ≤ XDefaultScreen d < Z.of_nat (length (roots conn))).
Proof.
  unfold XOpenDisplay, legal_default_screen.
  destruct (x_server env) as [d|]; [|split; [by left|done]].
  destruct (XGetXCBConnection d) as [conn|] eqn:Hconn.
  - destruct (0 <=? XDefaultScreen d) eqn:Hlo;
      destruct (XDefaultScreen d <? Z.of_nat (length (roots conn))) eqn:Hhi; simpl;
      try apply Z.leb_le in Hlo; try apply Z.leb_gt in Hlo;
      try apply Z.ltb_lt in Hhi; try apply Z.ltb_ge in Hhi.
    + split; [done|]. intros [?|(d' & conn' & [= <-] & Hc & Hout)]; [done|].
      rewrite Hconn in Hc. injection Hc as <-. lia.
    + split; [|done]. intros _. right. exists d, conn. repeat split; try done. lia.
    + split; [|done]. intros _. right. exists d, conn. repeat split; try done. lia.
    + split; [|done]. intros _. right. exists d, conn. repeat split; try done. lia.
  - split; [done|]. intros [?|(d' & conn' & [= <-] & Hc & _)]; [done|].
    by rewrite Hconn in Hc.
Qed.

Lemma XOpenDisplay_Some (env : XEnvironment) (d : Display) :
  XOpenDisplay env = Some d →
  x_server env = Some d
  ∧ ∀ conn, XGetXCBConnection d = Some conn →
            0 ≤ XDefaultScreen d < Z.of_nat (length (roots conn)).
Proof.
  unfold XOpenDisplay, legal_default_screen.
  destruct (x_server env) as [d'|]; [|done].
  destruct (XGetXCBConnection d') as [conn'|] eqn:Hconn.
  - destruct (0 <=? XDefaultScreen d') eqn:Hlo; [|done].
    destruct (XDefaultScreen d' <? Z.of_nat (length (roots conn'))) eqn:Hhi; [|done].
    simpl. intros [= <-]. split; [done|]. intros conn. rewrite Hconn. intros [= <-].
    apply Z.leb_le in Hlo. apply Z.ltb_lt in Hhi. lia.
  - intros [= <-]. split; [done|]. intros conn. by rewrite Hconn.
Qed.

(** C6: construction throws exactly when the display cannot be opened
    (no server is reached, or Xlib refuses the default screen as not one of
    the display's screens), the xcb connection cannot be derived from it,
    or no TrueColor visual of depth 32 matches on the default screen; it
    fails in no other way; and a constructed canvas holds the opened
    display, the derived connection, the matched visual and the descriptor
    of the default screen, which is one of the roots, with an empty
    registry and no image. *)
Theorem construct_all_or_nothing (env : XEnvironment) :
  ((∃ e, construct (Image := Image) env = Throws e) ↔
     XOpenDisplay env = None
     ∨ (∃ d, XOpenDisplay env = Some d ∧ XGetXCBConnection d = None)
     ∨ (∃ d, XOpenDisplay env = Some d
             ∧ ∀ v, v ∈ dpy_visuals d →
                    ¬ (vi_screen v = XDefaultScreen d ∧ vi_depth v = 32
                       ∧ vi_class v = TrueColor)))
  ∧ (XOpenDisplay env = None ↔
       x_server env = None
       ∨ ∃ d conn, x_server env = Some d ∧ XGetXCBConnection d = Some conn
                   ∧ ¬ (0 ≤ XDefaultScreen d < Z.of_nat (length (roots conn))))
  ∧ ((∃ e, construct (Image := Image) env = Throws e)
     ∨ ∃ c calls, construct (Image := Image) env = Returns (c, calls))
  ∧ (∀ (c : X11Canvas Image) calls, construct env = Returns (c, calls) →
       XOpenDisplay env = Some (display c)
       ∧ x_server env = Some (display c)
       ∧ XGetXCBConnection (display c) = Some (connection c)
       ∧ default_screen c = XDefaultScreen (display c)
       ∧ vinfo c ∈ dpy_visuals (display c)
       ∧ vi_screen (vinfo c) = default_screen c
       ∧ vi_depth (vinfo c) = 32
       ∧ vi_class (vinfo c) = TrueColor
       ∧ screen c = select_screen (connection c) (default_screen c)
       ∧ 0 ≤ default_screen c < Z.of_nat (length (roots (connection c)))
       ∧ screen c = roots (connection c) !! Z.to_nat (default_screen c)
       ∧ is_Some (screen c)
       ∧ windows c = ∅ ∧ image c = None ∧ can_draw c = true
       ∧ draw_thread c = NoThread ∧ event_handler c = Looping).
Proof.
  split; [|split; [apply XOpenDisplay_None|]].
  - unfold construct.
    destruct (XOpenDisplay env) as [d|] eqn:Hd; [|split; eauto].
    destruct (XGetXCBConnection d) as [conn|] eqn:Hc; [|split; eauto 6].
    destruct (XMatchVisualInfo d (XDefaultScreen d) 32 TrueColor) as [v|] eqn:Hv.
    + apply XMatchVisualInfo_Some in Hv as (Hin & Hs & Hdp & Hcl).
      split; [intros [e ?]; done|].
      intros [?|[(d' & ? & ?)|(d' & Heq & Hall)]]; [done|congruence|].
      injection Heq as <-. exfalso. by apply (Hall v).
    + split; [|eauto]. intros _. right; right. exists d. split; [done|].
      by apply XMatchVisualInfo_None.
  - unfold construct.
    destruct (XOpenDisplay env) as [d|] eqn:Hd; [|split; [eauto|done]].
    destruct (XGetXCBConnection d) as [conn|] eqn:Hc; [|split; [eauto|done]].
    destruct (XMatchVisualInfo d (XDefaultScreen d) 32 TrueColor) as [v|] eqn:Hv;
      [|split; [eauto|done]].
    apply XMatchVisualInfo_Some in Hv as (Hin & Hs & Hdp & Hcl).
    apply XOpenDisplay_Some in Hd as (Hserver & Hlegal).
    specialize (Hlegal conn Hc).
    split; [right; eauto|].
    intros c calls [= <- <-]; simpl.
    assert (Hscreen : select_screen conn (XDefaultScreen d)
                      = roots conn !! Z.to_nat (XDefaultScreen d))
      by (apply select_screen_default; lia).
    repeat split; try done; try lia.
    rewrite Hscreen. apply lookup_lt_is_Some. lia.
Qed.

End Construction.

(** ** The registry and the draw policies *)

Lemma count_occ_NoDup {A} {dec : EqDecision A} (l : list A) (x : A) :
  NoDup l → count_occ dec l x = if decide (x ∈ l) then 1%nat else 0%nat.
Proof.
  induction 1 as [|y l Hy Hnd IH]; simpl.
  - destruct (decide (x ∈ [])) as [Hin|]; [|done]. by apply elem_of_nil in Hin.
  - destruct (dec y x) as [->|Hne]; rewrite IH.
    + destruct (decide (x ∈ l)); [done|].
      destruct (decide (x ∈ x :: l)) as [|Hout]; [done|].
      destruct Hout. apply list_elem_of_here.
    + destruct (decide (x ∈ l)) as [Hin|Hin];
        destruct (decide (x ∈ y :: l)) as [Hin'|Hin']; try done.
      * destruct Hin'. by apply list_elem_of_further.
      * apply elem_of_cons in Hin' as [->|?]; done.
Qed.

Section CanvasProperties.
Context {Image : Type} `{!ImageOps Image}.
Implicit Types (c : X11Canvas Image) (img : Image) (wid : xcb_window_t).

Lemma for_each_window_keys (f : xcb_window_t → call) c :
  for_each_window f c = f <$> (map_to_list (windows c)).*1.
Proof. unfold for_each_window. by rewrite <- list_fmap_compose. Qed.

Lemma elem_of_registry_keys c wid :
  wid ∈ (map_to_list (windows c)).*1 ↔ wid ∈ dom (windows c).
Proof.
  rewrite elem_of_dom, list_elem_of_fmap. split.
  - intros ([k w] & -> & Hin). apply elem_of_map_to_list in Hin. by exists w.
  - intros [w Hw]. exists (wid, w). split; [done|]. by apply elem_of_map_to_list.
Qed.

Lemma elem_of_for_each_window (f : xcb_window_t → call) c (k : call) :
  k ∈ for_each_window f c ↔ ∃ wid, k = f wid ∧ wid ∈ dom (windows c).
Proof.
  rewrite for_each_window_keys, list_elem_of_fmap.
  by setoid_rewrite elem_of_registry_keys.
Qed.

Lemma count_for_each_window (f : xcb_window_t → call) c wid :
  Inj (=) (=) f →
  count_occ call_eq_dec (for_each_window f c) (f wid)
  = if decide (wid ∈ dom (windows c)) then 1%nat else 0%nat.
Proof.
  intros Hinj. rewrite for_each_window_keys, count_occ_NoDup.
  - destruct (decide (wid ∈ dom (windows c))) as [Hin|Hin].
    + rewrite decide_True; [done|].
      apply list_elem_of_fmap. exists wid. by rewrite elem_of_registry_keys.
    + rewrite decide_False; [done|].
      intros (w & Heq & Hw)%list_elem_of_fmap. apply (inj f) in Heq as <-.
      by apply Hin, elem_of_registry_keys.
  - apply (NoDup_fmap_2 f), NoDup_fst_map_to_list.
Qed.

Lemma GenerateFrame_inj : Inj (=) (=) GenerateFrame.
Proof. by intros ?? [= ->]. Qed.

(** What [draw] does for an image that is not animated. *)
Lemma draw_static c img :
  image c = Some img → is_animated img = false →
  draw c = Returns (c, for_each_window GenerateFrame c).
Proof. intros Hi Ha. unfold draw. by rewrite Hi, Ha. Qed.

(** *** [init] *)

Lemma lookup_map_insert_new {V} (m : gmap xcb_window_t V) (k k' : xcb_window_t) (v v' : V) :
  m !! k' = Some v' → map_insert_new k v m !! k' = Some v'.
Proof.
  intros Hk'. unfold map_insert_new. destruct (m !! k) eqn:Hk; [done|].
  rewrite lookup_insert_ne; [done|]. intros ->. congruence.
Qed.

Lemma lookup_map_insert_new_key {V} (m : gmap xcb_window_t V) (k : xcb_window_t) (v : V) :
  is_Some (map_insert_new k v m !! k).
Proof.
  unfold map_insert_new. destruct (m !! k) eqn:Hk; [by rewrite Hk|].
  by rewrite lookup_insert_eq.
Qed.

Lemma create_window_keeps dims c parent wid (w : X11Window) :
  windows c !! wid = Some w → windows (create_window dims c parent) !! wid = Some w.
Proof. intros Hw. unfold create_window; simpl. by apply lookup_map_insert_new. Qed.

Lemma create_window_frame dims c parent :
  image (create_window dims c parent) = image c
  ∧ can_draw (create_window dims c parent) = can_draw c
  ∧ draw_thread (create_window dims c parent) = draw_thread c.
Proof. done. Qed.

Lemma create_windows_keep dims (parents : list xcb_window_t) c wid (w : X11Window) :
  windows c !! wid = Some w →
  windows (foldl (create_window dims) c parents) !! wid = Some w.
Proof.
  revert c. induction parents as [|p parents IH]; intros c Hw; simpl; [done|].
  by apply IH, create_window_keeps.
Qed.

Lemma create_windows_frame dims (parents : list xcb_window_t) c :
  image (foldl (create_window dims) c parents) = image c
  ∧ can_draw (foldl (create_window dims) c parents) = can_draw c
  ∧ draw_thread (foldl (create_window dims) c parents) = draw_thread c.
Proof.
  revert c. induction parents as [|p parents IH]; intros c; simpl; [done|].
  destruct (IH (create_window dims c p)) as (-> & -> & ->). done.
Qed.

Lemma create_windows_nonempty dims (parents : list xcb_window_t) c :
  parents ≠ [] → windows (foldl (create_window dims) c parents) ≠ ∅.
Proof.
  destruct parents as [|p parents]; [done|]. intros _ Hempty. simpl in Hempty.
  destruct (lookup_map_insert_new_key (windows c) (xid (connection c) (xids_issued c))
              {| win_id := xid (connection c) (xids_issued c); win_parent := p;
                 win_dimensions := dims |}) as [w Hw].
  eapply (create_windows_keep dims parents (create_window dims c p)) in Hw.
  rewrite Hempty, lookup_empty in Hw. done.
Qed.

Lemma init_returns os dims (new_image : option Image) c c' calls :
  init os dims new_image c = Returns (c', calls) →
  ∃ img, new_image = Some img ∧ image c' = Some img
         ∧ can_draw c' = can_draw c ∧ draw_thread c' = draw_thread c
         ∧ windows c ⊆ windows c' ∧ windows c' ≠ ∅.
Proof.
  unfold init. destruct new_image as [img|]; [|done]. intros [= <- <-].
  exists img. split; [done|].
  destruct (create_windows_frame dims
              (elements (get_tmux_window_ids os {[x11_wid (terminal dims)]}))
              (with_image (Some img) c)) as (-> & -> & ->).
  repeat split; try done.
  - apply map_subseteq_spec. intros wid w Hw. by apply create_windows_keep.
  - apply create_windows_nonempty. intros Hnil.
    apply elements_empty_inv in Hnil.
    pose proof (terminal_window_resolved os (x11_wid (terminal dims))) as Hin.
    rewrite Hnil in Hin. set_solver.
Qed.

Lemma draw_thread_body_returns c img :
  image c = Some img →
  ∃ calls, draw_thread_body c = Returns (with_image (Some (next_frame img)) c, calls)
           ∧ count_occ call_eq_dec calls NextFrame = 1%nat.
Proof.
  intros Himg. unfold draw_thread_body. rewrite Himg. eexists. split; [done|].
  rewrite count_occ_app. simpl.
  assert (count_occ call_eq_dec (for_each_window GenerateFrame c) NextFrame = 0%nat)
    as ->; [|done].
  apply count_occ_not_In. intros Hin%list_elem_of_In.
  apply elem_of_for_each_window in Hin as (wid & Heq & _). done.
Qed.

Lemma draw_thread_body_can_draw c c' (calls : list call) :
  draw_thread_body c = Returns (c', calls) → can_draw c' = can_draw c.
Proof.
  unfold draw_thread_body. destruct (image c); [|done]. by intros [= <- _].
Qed.

(** C1: after [init] with an image that is not animated, [draw] returns
    at once with the canvas as it was; its calls are one [generate_frame]
    for each Window of the registry (which is not empty) and nothing else,
    so no thread is spawned and the thread member is untouched. *)
Theorem static_draw_renders_each_window_once
    os dims img c c1 (calls1 : list call) :
  is_animated img = false →
  init os dims (Some img) c = Returns (c1, calls1) →
  ∃ calls,
    draw c1 = Returns (c1, calls)
    ∧ windows c1 ≠ ∅
    ∧ (∀ wid, count_occ call_eq_dec calls (GenerateFrame wid)
              = if decide (wid ∈ dom (windows c1)) then 1%nat else 0%nat)
    ∧ (∀ k, k ∈ calls → ∃ wid, k = GenerateFrame wid ∧ wid ∈ dom (windows c1))
    ∧ length calls = size (windows c1)
    ∧ (∀ name, SpawnThread name ∉ calls)
    ∧ draw_thread c1 = draw_thread c.
Proof.
  intros Hstatic Hinit.
  apply init_returns in Hinit as (img' & [= <-] & Himg & _ & Hthread & _ & Hne).
  exists (for_each_window GenerateFrame c1).
  split; [by apply draw_static with img|]. split; [done|].
  split; [intros wid; apply count_for_each_window, GenerateFrame_inj|].
  split; [by intros k Hk; apply elem_of_for_each_window|].
  split.
  { unfold for_each_window. by rewrite length_fmap, length_map_to_list. }
  split; [|done].
  intros name (wid & Heq & _)%elem_of_for_each_window. done.
Qed.

(** C8: for an image that is not animated, [draw] makes no [next_frame]
    call and returns the canvas, image included, as it was; for an
    animated one [draw] itself only spawns the draw thread, and it is the
    body of that thread's loop that calls [next_frame] and replaces the
    image by its next frame. *)
Theorem static_draw_keeps_frame c img :
  image c = Some img →
  (is_animated img = false →
     ∃ calls, draw c = Returns (c, calls) ∧ NextFrame ∉ calls)
  ∧ (is_animated img = true → ∀ c' calls, draw c = Returns (c', calls) →
       calls = [SpawnThread "draw_thread"] ∧ image c' = image c
       ∧ draw_thread c' = Looping)
  ∧ (∃ calls, draw_thread_body c
              = Returns (with_image (Some (next_frame img)) c, calls)
              ∧ count_occ call_eq_dec calls NextFrame = 1%nat).
Proof.
  intros Himg. split; [|split].
  - intros Hstatic. exists (for_each_window GenerateFrame c).
    split; [by apply draw_static with img|].
    intros (wid & Heq & _)%elem_of_for_each_window. done.
  - intros Hanim c' calls. unfold draw. rewrite Himg, Hanim. simpl.
    destruct (joinable (draw_thread c)); [done|]. by intros [= <- <-].
  - by apply draw_thread_body_returns.
Qed.

(** C9: [init] only adds to the registry: every Window registered before
    is registered, unchanged, after, so the key set only grows, while the
    image is replaced by the new one; in particular a second [init] with
    no [clear] in between keeps the Windows of the first. *)
Theorem init_only_inserts os dims (new_image : option Image) c c' (calls : list call) :
  init os dims new_image c = Returns (c', calls) →
  (∀ wid (w : X11Window), windows c !! wid = Some w → windows c' !! wid = Some w)
  ∧ dom (windows c) ⊆ dom (windows c')
  ∧ image c' = new_image
  ∧ (∀ os2 dims2 (image2 : option Image) c'' calls2,
       init os2 dims2 image2 c' = Returns (c'', calls2) →
       windows c' ⊆ windows c'' ∧ dom (windows c') ⊆ dom (windows c'')
       ∧ image c'' = image2).
Proof.
  intros Hinit.
  apply init_returns in Hinit as (img & -> & Himg & _ & _ & Hsub & _).
  split; [|split; [|split]].
  - intros wid w Hw. by eapply (map_subseteq_spec (windows c)).
  - by apply subseteq_dom.
  - done.
  - intros os2 dims2 image2 c'' calls2 Hinit2.
    apply init_returns in Hinit2 as (img2 & -> & Himg2 & _ & _ & Hsub2 & _).
    split; [done|]. split; [by apply subseteq_dom|done].
Qed.

(** *** [clear] and the draw thread *)

Lemma draw_thread_loop_lowered (rest : list interference) c :
  can_draw c = false →
  draw_thread_loop (Quiet :: rest) c = Returns (c, [], LoopExited).
Proof. intros Hflag. simpl. by rewrite Hflag. Qed.

Lemma clear_returns patience c :
  (draw_thread c = Looping → patience ≠ O) →
  ∃ c', clear patience c = Returns (c', [])
        ∧ windows c' = ∅ ∧ image c' = None ∧ can_draw c' = true
        ∧ draw_thread c' = NoThread
        ∧ display c' = display c ∧ default_screen c' = default_screen c
        ∧ connection c' = connection c ∧ xids_issued c' = xids_issued c
        ∧ screen c' = screen c ∧ vinfo c' = vinfo c
        ∧ event_handler c' = event_handler c.
Proof.
  intros Hpatience. unfold clear.
  destruct (draw_thread c) eqn:Ht; simpl; rewrite ?Ht; simpl.
  - eexists. split; [done|]. simpl. by rewrite Ht.
  - destruct patience as [|p]; [by destruct Hpatience|].
    unfold join; simpl. rewrite Ht. simpl. eexists. split; [done|]. done.
  - unfold join; simpl. rewrite Ht. eexists. split; [done|]. done.
Qed.

Lemma clear_cleared patience c :
  windows c = ∅ → image c = None → can_draw c = true → draw_thread c = NoThread →
  clear patience c = Returns (c, []).
Proof.
  destruct c; simpl. intros -> -> -> ->. done.
Qed.

(** C3: [clear] on a canvas that was constructed and never initialised
    returns with the canvas as it was, registry empty and no image; on any
    canvas a [clear] that waits for one turn of the draw thread returns
    with the registry empty, the image released, the flag set again and no
    thread left, and a further [clear] returns with that very canvas. *)
Theorem clear_is_idempotent (patience : nat) c :
  (∀ env calls, construct env = Returns (c, calls) →
     clear patience c = Returns (c, []) ∧ windows c = ∅ ∧ image c = None)
  ∧ ∃ c', clear (S patience) c = Returns (c', [])
          ∧ windows c' = ∅ ∧ image c' = None
          ∧ can_draw c' = true ∧ draw_thread c' = NoThread
          ∧ ∀ patience', clear patience' c' = Returns (c', []).
Proof.
  split.
  - intros env calls Hc.
    destruct (constructed_canvas_is_fresh env c calls Hc) as (Hw & Hi & Hf & Ht).
    split; [by apply clear_cleared|done].
  - destruct (clear_returns (S patience) c) as (c' & Hclear & Hw & Hi & Hf & Ht & _);
      [done|].
    exists c'. repeat split; try done. intros patience'. by apply clear_cleared.
Qed.

(** C10: [draw] is undefined exactly when the image is null: that is
    the state of a canvas just constructed and of a canvas after [clear];
    after an [init] that returned the image is present and [draw] is
    defined. *)
Theorem draw_requires_image c :
  (draw c = Undefined ↔ image c = None)
  ∧ (∀ os dims (new_image : option Image) c0 calls,
       init os dims new_image c0 = Returns (c, calls) →
       is_Some (image c) ∧ draw c ≠ Undefined)
  ∧ (∀ patience c' calls, clear patience c = Returns (c', calls) → draw c' = Undefined)
  ∧ (∀ env calls, construct env = Returns (c, calls) → draw c = Undefined).
Proof.
  assert (Hiff : ∀ c, draw c = Undefined ↔ image c = None).
  { intros x. unfold draw. destruct (image x) as [img|]; [|done].
    destruct (negb (is_animated img)); [done|].
    by destruct (joinable (draw_thread x)). }
  split; [apply Hiff|]. split; [|split].
  - intros os dims new_image c0 calls Hinit.
    apply init_returns in Hinit as (img & _ & Himg & _).
    split; [by exists img|]. rewrite Hiff, Himg. done.
  - intros patience c' calls. unfold clear.
    destruct (if joinable (draw_thread (with_can_draw false c))
              then join patience (with_can_draw false c)
              else Returns (with_can_draw false c, [])) as [[c1 frames]| | | |];
      simpl; try done.
    intros [= <- _]. by apply Hiff.
  - intros env calls Hc. apply Hiff.
    by destruct (constructed_canvas_is_fresh env c calls Hc) as (_ & ? & _).
Qed.

Lemma draw_thread_loop_exit (schedule : list interference) c c' (calls : list call) :
  draw_thread_loop schedule c = Returns (c', calls, LoopExited) →
  can_draw c' = false ∧ (can_draw c = false ∨ LowerCanDraw ∈ schedule).
Proof.
  revert c calls. induction schedule as [|i rest IH]; intros c calls; simpl; [done|].
  destruct (can_draw (interfere_canvas i c)) eqn:Hflag.
  - destruct (draw_thread_body (interfere_canvas i c)) as [[c1 frames]| | | |] eqn:Hbody;
      simpl; try done.
    destruct (draw_thread_loop rest c1) as [[[c2 more] status]| | | |] eqn:Hloop;
      simpl; try done.
    intros [= <- _ ->]. apply IH in Hloop as [Hlow [Hc1|Hin]].
    + apply draw_thread_body_can_draw in Hbody. congruence.
    + split; [done|]. right. by apply list_elem_of_further.
  - intros [= <- _]. split; [done|].
    destruct i; simpl in *; [by left|by left|right; apply list_elem_of_here].
Qed.

Lemma draw_thread_loop_keeps_looping (schedule : list interference) c :
  can_draw c = true → is_Some (image c) → LowerCanDraw ∉ schedule →
  ∃ c' calls, draw_thread_loop schedule c = Returns (c', calls, StillLooping)
              ∧ count_occ call_eq_dec calls NextFrame = length schedule.
Proof.
  revert c. induction schedule as [|i rest IH]; intros c Hflag [img Himg] Hquiet; simpl.
  - by exists c, [].
  - assert (interfere_canvas i c = c) as ->.
    { destruct i; try done. destruct Hquiet. apply list_elem_of_here. }
    rewrite Hflag.
    destruct (draw_thread_body_returns c img Himg) as (frames & -> & Hone). simpl.
    destruct (IH (with_image (Some (next_frame img)) c)) as (c' & more & -> & Hcount).
    + done.
    + by eexists.
    + intros Hin. apply Hquiet. by apply list_elem_of_further.
    + simpl. exists c', (frames ++ more). split; [done|].
      rewrite count_occ_app. lia.
Qed.

Lemma draw_thread_loop_blind_to_stop (schedule schedule' : list interference) c :
  Forall2 (λ i j, i = LowerCanDraw ↔ j = LowerCanDraw) schedule schedule' →
  draw_thread_loop schedule' c = draw_thread_loop schedule c.
Proof.
  intros Hsame. revert c. induction Hsame as [|i j rest rest' Hij _ IH]; intros c; [done|].
  simpl. assert (interfere_canvas j c = interfere_canvas i c) as ->.
  { destruct i, j; try done; destruct Hij as [H1 H2];
      first [by discriminate H1|by discriminate H2]. }
  destruct (can_draw (interfere_canvas i c)); [|done].
  destruct (draw_thread_body (interfere_canvas i c)) as [[c1 frames]| | | |]; simpl; try done.
  by rewrite IH.
Qed.

(** C7: the loop of the draw thread is left only with [can_draw] read as
    false, which needs the flag to be false at the start or a
    [can_draw.store(false)] in between; with the flag true and an image
    present it keeps looping, one frame per turn, however often the
    process-wide stop signal is raised; where that signal is raised makes no
    difference to the run; and the store of [clear] ends it at the next
    test. *)
Theorem draw_loop_left_only_by_flag (schedule : list interference) c :
  (∀ c' calls, draw_thread_loop schedule c = Returns (c', calls, LoopExited) →
     can_draw c' = false ∧ (can_draw c = false ∨ LowerCanDraw ∈ schedule))
  ∧ (can_draw c = true → is_Some (image c) → LowerCanDraw ∉ schedule →
     ∃ c' calls, draw_thread_loop schedule c = Returns (c', calls, StillLooping)
                 ∧ count_occ call_eq_dec calls NextFrame = length schedule)
  ∧ (∀ schedule',
       Forall2 (λ i j, i = LowerCanDraw ↔ j = LowerCanDraw) schedule schedule' →
       draw_thread_loop schedule' c = draw_thread_loop schedule c)
  ∧ draw_thread_loop (LowerCanDraw :: schedule) c
    = Returns (with_can_draw false c, [], LoopExited).
Proof.
  split; [|split; [|split]].
  - intros c' calls. apply draw_thread_loop_exit.
  - apply draw_thread_loop_keeps_looping.
  - intros schedule'. apply draw_thread_loop_blind_to_stop.
  - done.
Qed.

(** *** The event dispatcher *)

Lemma handle_event_returns c event : ∃ logged, handle_event c event = Returns logged.
Proof.
  unfold handle_event.
  destruct (Z.land (response_type event) (Z.lnot event_mask) =? 0).
  - destruct (xcb_errors_get_name_for_error _ _). by eexists.
  - destruct (Z.land (response_type event) (Z.lnot event_mask) =? XCB_EXPOSE);
      [|by eexists].
    unfold map_at. destruct (windows c !! expose_window event); by eexists.
Qed.

Lemma drain_events_returns c (events : list xcb_generic_event_t) :
  ∃ logged, drain_events c events = Returns logged.
Proof.
  induction events as [|event rest [more IH]]; simpl; [by eexists|].
  destruct (handle_event_returns c event) as [logged ->]. rewrite IH. by eexists.
Qed.

Lemma drain_events_app c (pre post : list xcb_generic_event_t) (l1 l2 : list call) :
  drain_events c pre = Returns l1 → drain_events c post = Returns l2 →
  drain_events c (pre ++ post) = Returns (l1 ++ l2).
Proof.
  revert l1. induction pre as [|event pre IH]; intros l1; simpl.
  - by intros [= <-].
  - destruct (handle_event_returns c event) as [logged ->]. simpl.
    destruct (drain_events_returns c pre) as [more Hmore]. rewrite Hmore. simpl.
    intros [= <-] Hpost. rewrite (IH more) by done. simpl. by rewrite app_assoc.
Qed.

Lemma drain_events_around c event (pre post : list xcb_generic_event_t) (logged : list call) :
  handle_event c event = Returns logged →
  ∃ l1 l2, drain_events c pre = Returns l1 ∧ drain_events c post = Returns l2
           ∧ drain_events c (pre ++ event :: post) = Returns (l1 ++ logged ++ l2).
Proof.
  intros Hev.
  destruct (drain_events_returns c pre) as [l1 Hpre].
  destruct (drain_events_returns c post) as [l2 Hpost].
  exists l1, l2. split; [done|]. split; [done|].
  apply drain_events_app; [done|]. simpl. by rewrite Hev, Hpost.
Qed.

Lemma handle_events_wake c (events : list xcb_generic_event_t) (wakes : list wake)
    (logged : list call) :
  drain_events c events = Returns logged →
  handle_events false c ({| before := Quiet; data_ready := true; queue := events |} :: wakes)
  = '(more, status) ← handle_events false c wakes; Returns (logged ++ more, status).
Proof. intros Hq. simpl. by rewrite Hq. Qed.

Lemma handle_events_returns (stop_flag_ : bool) c (wakes : list wake) :
  ∃ logged status, handle_events stop_flag_ c wakes = Returns (logged, status).
Proof.
  revert stop_flag_ c. induction wakes as [|w rest IH]; intros stop c; simpl.
  - by eexists _, _.
  - destruct (interfere_stop (before w) stop); [by eexists _, _|].
    destruct (negb (data_ready w)); [apply IH|].
    destruct (drain_events_returns (interfere_canvas (before w) c) (queue w)) as [l ->].
    destruct (IH false (interfere_canvas (before w) c)) as (more & status & ->).
    by eexists _, _.
Qed.

(** The dispatcher leaves its loop only when it reads the stop signal as
    raised. *)
Lemma handle_events_stops (stop_flag_ : bool) c (wakes : list wake) (logged : list call) :
  handle_events stop_flag_ c wakes = Returns (logged, LoopExited) →
  stop_flag_ = true ∨ ∃ w, w ∈ wakes ∧ before w = RaiseStop.
Proof.
  revert stop_flag_ c logged. induction wakes as [|w rest IH]; intros stop c logged; [done|].
  simpl. destruct (interfere_stop (before w) stop) eqn:Hstop.
  - intros _. destruct (before w) eqn:Hb; simpl in Hstop.
    + by left.
    + right. exists w. split; [apply list_elem_of_here|done].
    + by left.
  - assert (Hrest : ∀ c1 l, handle_events false c1 rest = Returns (l, LoopExited) →
                            ∃ w', w' ∈ w :: rest ∧ before w' = RaiseStop).
    { intros c1 l Hl. apply IH in Hl as [?|(w' & Hin & Hb)]; [done|].
      exists w'. split; [by apply list_elem_of_further|done]. }
    destruct (negb (data_ready w)).
    + intros Hl. right. by eapply Hrest.
    + destruct (drain_events (interfere_canvas (before w) c) (queue w)); simpl; try done.
      destruct (handle_events false (interfere_canvas (before w) c) rest)
        as [[more status]| | | |] eqn:Hl; simpl; try done.
      intros [= _ ->]. right. by eapply Hrest.
Qed.

(** An Expose event for a registered window: the same debug line, then
    the redraw of that Window. *)
Lemma expose_for_known_window_draws c event (win : X11Window) :
  Z.land (response_type event) (Z.lnot event_mask) = XCB_EXPOSE →
  windows c !! expose_window event = Some win →
  handle_event c event
  = Returns [Log LvlDebug "Received expose event for window {}"
               [ArgNum (Z.of_N (expose_window event))];
             WindowDraw (expose_window event)].
Proof.
  intros Htype Hhit. unfold handle_event. rewrite Htype. simpl.
  unfold map_at. by rewrite Hhit.
Qed.

(** C4: an Expose event for a window that is not a key of the registry
    makes [handle_event] return with the debug line every Expose event gets
    and nothing else: no exception leaves it, nothing is logged as an
    error, no Window is drawn; wherever the event stands in the queue, the
    events around it are handled as they would be without it, and the outer
    loop goes on with the next wake. *)
Theorem expose_for_unknown_window_ignored c event :
  Z.land (response_type event) (Z.lnot event_mask) = XCB_EXPOSE →
  windows c !! expose_window event = None →
  let logged := [Log LvlDebug "Received expose event for window {}"
                   [ArgNum (Z.of_N (expose_window event))]] in
  handle_event c event = Returns logged
  ∧ (∀ fmt args, Log LvlError fmt args ∉ logged)
  ∧ (∀ wid, WindowDraw wid ∉ logged)
  ∧ (∀ pre post, ∃ l1 l2,
       drain_events c pre = Returns l1 ∧ drain_events c post = Returns l2
       ∧ drain_events c (pre ++ event :: post) = Returns (l1 ++ logged ++ l2)
       ∧ ∀ wakes,
           handle_events false c
             ({| before := Quiet; data_ready := true; queue := pre ++ event :: post |}
                :: wakes)
           = '(more, status) ← handle_events false c wakes;
             Returns ((l1 ++ logged ++ l2) ++ more, status)).
Proof.
  intros Htype Hmiss logged.
  assert (Hev : handle_event c event = Returns logged).
  { unfold handle_event. rewrite Htype. simpl. unfold map_at. by rewrite Hmiss. }
  split; [done|]. split; [|split].
  - intros fmt args Hin. apply list_elem_of_singleton in Hin. done.
  - intros wid Hin. apply list_elem_of_singleton in Hin. done.
  - intros pre post.
    destruct (drain_events_around c event pre post logged Hev) as (l1 & l2 & H1 & H2 & H).
    exists l1, l2. repeat split; try done.
    intros wakes. by apply handle_events_wake.
Qed.

(** C5: a protocol error event (type code 0 under the mask) makes
    [handle_event] return with one line logged as an error, whose six
    arguments fill the six fields of its format: the error name, the major
    opcode name, the minor opcode name when the facility has one (the
    text no_minor when it has none), the resource id and the sequence
    number; wherever the event stands in the queue, the events around it are
    handled and the outer loop goes on with the next wake; the dispatcher
    always returns from its wakes, and with its loop left only when the stop
    signal was raised. *)
Theorem protocol_error_is_logged c event :
  Z.land (response_type event) (Z.lnot event_mask) = 0 →
  let err_ctx := xcb_errors_context_new (connection c) in
  let fmt := "XCB: {}:{}, {}:{}, resource {} sequence {}"%string in
  ∃ args,
    handle_event c event = Returns [Log LvlError fmt args]
    ∧ ArgStr (xcb_errors_get_name_for_error err_ctx (error_code event)).1 ∈ args
    ∧ ArgStr (xcb_errors_get_name_for_major_code err_ctx (major_code event)) ∈ args
    ∧ match xcb_errors_get_name_for_minor_code err_ctx (major_code event) (minor_code event) with
      | Some minor => ArgStr minor ∈ args
      | None => ArgStr "no_minor" ∈ args
      end
    ∧ ArgNum (Z.of_N (resource_id event)) ∈ args
    ∧ ArgNum (sequence event) ∈ args
    ∧ length args = placeholders fmt
    ∧ (∀ pre post, ∃ l1 l2,
         drain_events c pre = Returns l1 ∧ drain_events c post = Returns l2
         ∧ drain_events c (pre ++ event :: post)
           = Returns (l1 ++ [Log LvlError fmt args] ++ l2)
         ∧ ∀ wakes,
             handle_events false c
               ({| before := Quiet; data_ready := true; queue := pre ++ event :: post |}
                  :: wakes)
             = '(more, status) ← handle_events false c wakes;
               Returns ((l1 ++ [Log LvlError fmt args] ++ l2) ++ more, status))
    ∧ (∀ stop_flag_ wakes, ∃ logged status,
         handle_events stop_flag_ c wakes = Returns (logged, status)
         ∧ (status = LoopExited →
            stop_flag_ = true ∨ ∃ w, w ∈ wakes ∧ before w = RaiseStop)).
Proof.
  intros Htype err_ctx fmt.
  destruct (xcb_errors_get_name_for_error err_ctx (error_code event))
    as [error extension] eqn:Herr.
  set (minor := xcb_errors_get_name_for_minor_code err_ctx (major_code event)
                  (minor_code event)).
  set (args := [ArgStr error; ArgStr (default "no_extension" extension);
                ArgStr (xcb_errors_get_name_for_major_code err_ctx (major_code event));
                ArgStr (default "no_minor" minor);
                ArgNum (Z.of_N (resource_id event)); ArgNum (sequence event)]).
  exists args.
  assert (Hev : handle_event c event = Returns [Log LvlError fmt args]).
  { unfold handle_event. rewrite Htype. simpl. fold err_ctx. by rewrite Herr. }
  split; [done|]. simpl.
  split; [set_solver|]. split; [set_solver|].
  split; [subst args; destruct minor; set_solver|].
  split; [set_solver|]. split; [set_solver|]. split; [done|].
  split.
  - intros pre post.
    destruct (drain_events_around c event pre post _ Hev) as (l1 & l2 & H1 & H2 & H).
    exists l1, l2. repeat split; try done.
    intros wakes. by apply handle_events_wake.
  - intros stop wakes.
    destruct (handle_events_returns stop c wakes) as (logged & status & Hret).
    exists logged, status. split; [done|]. intros ->. by eapply handle_events_stops.
Qed.

End CanvasProperties.

(** ** The theorems at the concrete world *)

Lemma resolve_target_windows_witness :
  get_client_pids sample_tmux = Some [100; 200]
  ∧ 0x500001%N ∈ get_tmux_window_ids sample_tmux {[ 0x500001%N ]}
  ∧ 0x700001%N ∈ get_tmux_window_ids sample_tmux {[ 0x500001%N ]}
  ∧ 0x900001%N ∈ get_tmux_window_ids sample_tmux {[ 0x500001%N ]}
  ∧ size (get_tmux_window_ids sample_tmux {[ 0x500001%N ]}) = 3%nat
  ∧ get_client_pids no_tmux = None
  ∧ get_tmux_window_ids no_tmux {[ 0x500001%N ]} = {[ 0x500001%N ]}.
Proof.
  assert (Hpids : get_client_pids sample_tmux = Some [100; 200]) by reflexivity.
  destruct (resolve_target_windows no_tmux 0x500001%N) as (_ & Hsingle & _).
  destruct (resolve_target_windows sample_tmux 0x500001%N) as (Hown & _ & Hmux & _).
  split; [exact Hpids|]. split; [exact Hown|]. split; [|split; [|split; [|split]]].
  - apply (Hmux _ Hpids). right. exists 100, 50.
    split; [apply list_elem_of_here|]. split; [|reflexivity].
    apply list_elem_of_further, list_elem_of_here.
  - apply (Hmux _ Hpids). right. exists 200, 60.
    split; [apply list_elem_of_further, list_elem_of_here|]. split; [|reflexivity].
    apply list_elem_of_further, list_elem_of_here.
  - vm_compute; reflexivity.
  - reflexivity.
  - by apply Hsingle.
Defined.

Lemma construct_all_or_nothing_witness :
  (∃ e, construct (Image := Gif) no_visual = Throws e)
  ∧ construct (Image := Gif) bad_screen = Throws (runtime_error "Can't open X11 display")
  ∧ (∃ e, construct (Image := Gif) no_xcb = Throws e)
  ∧ (∃ e, construct (Image := Gif) no_server = Throws e)
  ∧ construct sample_env = Returns (fresh_canvas, calls_of (construct (Image := Gif) sample_env))
  ∧ visualid (vinfo fresh_canvas) = 0x5d%N
  ∧ screen fresh_canvas = Some {| root := 1980%N; root_depth := 24 |}.
Proof.
  destruct (construct_all_or_nothing (Image := Gif) no_visual) as [Hthrows _].
  split.
  { apply Hthrows. right; right. exists {| dpy_default_screen := 0;
      dpy_xcb := Some sample_connection; dpy_visuals := take 2 sample_visuals |}.
    split; [reflexivity|]. intros v Hin (_ & Hdepth & Hclass).
    simpl in Hin. apply elem_of_cons in Hin as [->|Hin]; [discriminate Hdepth|].
    apply list_elem_of_singleton in Hin as ->. discriminate Hclass. }
  split; [reflexivity|]. split; [by eexists|]. split; [by eexists|].
  repeat split; vm_compute; reflexivity.
Defined.

Lemma static_draw_witness :
  is_animated still_image = false
  ∧ init sample_tmux sample_dimensions (Some still_image) fresh_canvas
    = Returns (still_canvas, [Log LvlDebug "Initializing canvas" []])
  ∧ ∃ calls,
      draw still_canvas = Returns (still_canvas, calls)
      ∧ windows still_canvas ≠ ∅
      ∧ (∀ wid, count_occ call_eq_dec calls (GenerateFrame wid)
                = if decide (wid ∈ dom (windows still_canvas)) then 1%nat else 0%nat)
      ∧ (∀ k, k ∈ calls → ∃ wid, k = GenerateFrame wid ∧ wid ∈ dom (windows still_canvas))
      ∧ length calls = size (windows still_canvas)
      ∧ (∀ name, SpawnThread name ∉ calls)
      ∧ draw_thread still_canvas = draw_thread fresh_canvas.
Proof.
  assert (Hstatic : is_animated still_image = false) by reflexivity.
  assert (Hinit : init sample_tmux sample_dimensions (Some still_image) fresh_canvas
                  = Returns (still_canvas, [Log LvlDebug "Initializing canvas" []]))
    by (vm_compute; reflexivity).
  exact (conj Hstatic (conj Hinit
           (static_draw_renders_each_window_once sample_tmux sample_dimensions
              still_image fresh_canvas still_canvas _ Hstatic Hinit))).
Defined.

Lemma clear_is_idempotent_witness :
  clear 0 fresh_canvas = Returns (fresh_canvas, [])
  ∧ draw_thread animating_canvas = Looping
  ∧ ∃ c', clear 1 animating_canvas = Returns (c', [])
          ∧ windows c' = ∅ ∧ image c' = None
          ∧ can_draw c' = true ∧ draw_thread c' = NoThread
          ∧ ∀ patience', clear patience' c' = Returns (c', []).
Proof.
  destruct (clear_is_idempotent 0 fresh_canvas) as [Hfresh _].
  destruct (clear_is_idempotent 0 animating_canvas) as [_ Hany].
  split; [|split; [reflexivity|exact Hany]].
  apply (Hfresh sample_env (calls_of (construct (Image := Gif) sample_env))).
  vm_compute; reflexivity.
Defined.

Lemma expose_for_unknown_window_witness :
  Z.land (response_type stale_expose_event) (Z.lnot event_mask) = XCB_EXPOSE
  ∧ windows still_canvas !! expose_window stale_expose_event = None
  ∧ handle_event still_canvas stale_expose_event
    = Returns [Log LvlDebug "Received expose event for window {}" [ArgNum 0x2400063]].
Proof.
  assert (Htype : Z.land (response_type stale_expose_event) (Z.lnot event_mask) = XCB_EXPOSE)
    by reflexivity.
  assert (Hmiss : windows still_canvas !! expose_window stale_expose_event = None)
    by (vm_compute; reflexivity).
  exact (conj Htype (conj Hmiss
           (proj1 (expose_for_unknown_window_ignored still_canvas stale_expose_event
                     Htype Hmiss)))).
Defined.

Lemma protocol_error_is_logged_witness :
  Z.land (response_type error_event) (Z.lnot event_mask) = 0
  ∧ ∃ args,
      handle_event still_canvas error_event
      = Returns [Log LvlError "XCB: {}:{}, {}:{}, resource {} sequence {}" args]
      ∧ ArgStr "Window" ∈ args ∧ ArgStr "CreateWindow" ∈ args
      ∧ ArgStr "no_minor" ∈ args
      ∧ ArgNum 0x2400009 ∈ args ∧ ArgNum 77 ∈ args
      ∧ length args = 6%nat.
Proof.
  assert (Htype : Z.land (response_type error_event) (Z.lnot event_mask) = 0)
    by reflexivity.
  split; [exact Htype|].
  destruct (protocol_error_is_logged still_canvas error_event Htype)
    as (args & Hev & Herror & Hmajor & Hminor & Hres & Hseq & Hlen & _).
  exists args. repeat split; assumption.
Defined.

Lemma draw_loop_left_only_by_flag_witness :
  can_draw animating_canvas = true
  ∧ is_Some (image animating_canvas)
  ∧ (LowerCanDraw ∉ [Quiet; RaiseStop; RaiseStop])
  ∧ ∃ c' calls,
      (draw_thread_loop [Quiet; RaiseStop; RaiseStop] animating_canvas
       = Returns (c', calls, StillLooping))
      ∧ count_occ call_eq_dec calls NextFrame = 3%nat.
Proof.
  assert (Hflag : can_draw animating_canvas = true) by reflexivity.
  assert (Himg : is_Some (image animating_canvas)) by (by eexists).
  assert (Hquiet : LowerCanDraw ∉ [Quiet; RaiseStop; RaiseStop]).
  { intros Hin. repeat (apply elem_of_cons in Hin as [Hin|Hin]; [discriminate Hin|]).
    by apply elem_of_nil in Hin. }
  destruct (draw_loop_left_only_by_flag [Quiet; RaiseStop; RaiseStop] animating_canvas)
    as (_ & Hloops & _).
  exact (conj Hflag (conj Himg (conj Hquiet (Hloops Hflag Himg Hquiet)))).
Defined.

Lemma static_draw_keeps_frame_witness :
  image still_canvas = Some still_image
  ∧ is_animated still_image = false
  ∧ ∃ calls, draw still_canvas = Returns (still_canvas, calls) ∧ NextFrame ∉ calls.
Proof.
  assert (Himg : image still_canvas = Some still_image) by reflexivity.
  assert (Hstatic : is_animated still_image = false) by reflexivity.
  exact (conj Himg (conj Hstatic
           (proj1 (static_draw_keeps_frame still_canvas still_image Himg) Hstatic))).
Defined.

Lemma init_only_inserts_witness :
  init no_tmux sample_dimensions (Some animated_image) still_canvas
  = Returns (canvas_of (init no_tmux sample_dimensions (Some animated_image) still_canvas)
               blank_canvas,
             [Log LvlDebug "Initializing canvas" []])
  ∧ dom (windows still_canvas)
    ⊆ dom (windows (canvas_of (init no_tmux sample_dimensions (Some animated_image)
                                 still_canvas) blank_canvas))
  ∧ size (windows still_canvas) = 3%nat
  ∧ size (windows (canvas_of (init no_tmux sample_dimensions (Some animated_image)
                                still_canvas) blank_canvas)) = 4%nat.
Proof.
  assert (Hinit : init no_tmux sample_dimensions (Some animated_image) still_canvas
            = Returns (canvas_of (init no_tmux sample_dimensions (Some animated_image)
                                    still_canvas) blank_canvas,
                       [Log LvlDebug "Initializing canvas" []]))
    by (vm_compute; reflexivity).
  split; [exact Hinit|]. split.
  - exact (proj1 (proj2 (init_only_inserts no_tmux sample_dimensions (Some animated_image)
                           still_canvas _ _ Hinit))).
  - split; vm_compute; reflexivity.
Defined.

Lemma draw_requires_image_witness :
  draw fresh_canvas = Undefined
  ∧ draw still_canvas ≠ Undefined
  ∧ image fresh_canvas = None.
Proof.
  destruct (draw_requires_image fresh_canvas) as (Hiff & _).
  destruct (draw_requires_image still_canvas) as (_ & Hinit & _).
  split; [by apply Hiff|]. split; [|reflexivity].
  refine (proj2 (Hinit sample_tmux sample_dimensions (Some still_image) fresh_canvas
                   [Log LvlDebug "Initializing canvas" []] _)).
  vm_compute; reflexivity.
Defined.

(** * Further properties of x11.cpp *)

(** ** The target-window set from any starting set *)

(** X1: [get_tmux_window_ids] only adds to the set it is given: the result
    is that set joined with what the multiplexer contributes on its own,
    every contributed id is a value of the pid-to-window map, and a second
    resolution with the same collaborators adds nothing. *)
Theorem get_tmux_window_ids_extends (os : Collaborators) (windows : gset xcb_window_t) :
  get_tmux_window_ids os windows = windows ∪ get_tmux_window_ids os ∅
  ∧ (∀ w, w ∈ get_tmux_window_ids os ∅ →
          ∃ ppid, get_pid_window_map os !! ppid = Some w)
  ∧ get_tmux_window_ids os (get_tmux_window_ids os windows)
    = get_tmux_window_ids os windows.
Proof.
  assert (Hchar : ∀ W w, w ∈ get_tmux_window_ids os W ↔
            w ∈ W ∨ ∃ pids pid ppid, get_client_pids os = Some pids ∧ pid ∈ pids
                     ∧ ppid ∈ get_process_tree os pid
                     ∧ get_pid_window_map os !! ppid = Some w).
  { intros W w. unfold get_tmux_window_ids.
    destruct (get_client_pids os) as [pids|].
    - rewrite elem_of_add_chains. split.
      + intros [?|(pid & ppid & ? & ? & ?)]; [by left|right]. by exists pids, pid, ppid.
      + intros [?|(pids' & pid & ppid & [= <-] & ? & ? & ?)]; [by left|right].
        by exists pid, ppid.
    - split; [by left|]. by intros [?|(? & ? & ? & ? & _)]. }
  split; [|split].
  - apply set_eq. intros w. rewrite elem_of_union, !Hchar. split.
    + intros [?|?]; [by left|right; by right].
    + intros [?|[Hin|?]]; [by left| |by right]. by apply not_elem_of_empty in Hin.
  - intros w [Hin|(pids & pid & ppid & _ & _ & _ & Hw)]%Hchar.
    + by apply not_elem_of_empty in Hin.
    + by exists ppid.
  - apply set_eq. intros w. rewrite !Hchar. split.
    + intros [[?|?]|?]; [by left|by right|by right].
    + intros [?|?]; [by left; left|by right].
Qed.

(** ** The screen the constructor selects *)

Lemma construct_screen {Image : Type} (env : XEnvironment) (c : X11Canvas Image) calls :
  construct env = Returns (c, calls) →
  screen c = select_screen (connection c) (default_screen c).
Proof.
  unfold construct. destruct (XOpenDisplay env) as [d|]; [|done].
  destruct (XGetXCBConnection d) as [conn|]; [|done].
  destruct (XMatchVisualInfo d (XDefaultScreen d) 32 TrueColor) as [v|]; [|done].
  by intros [= <- <-].
Qed.

Lemma walk_screens_stays (steps : nat) (it : xcb_screen_iterator_t) (n : Z) :
  n ≤ 0 → walk_screens steps it n = it.
Proof.
  intros Hn. destruct steps as [|k]; [done|]. simpl.
  replace (0 <? n) with false by (symmetry; apply Z.ltb_ge; lia).
  by rewrite andb_false_r.
Qed.

(** X2: the walk to the default screen stops at the first root for a
    screen number that is not positive, reaches root number n for n within
    the roots, and runs past the last root, leaving no screen, for every
    larger n; the constructor makes no check of its own, so the canvas has a
    screen exactly when the number, taken as at least 0, is below the number
    of roots. *)
Theorem select_screen_bounds {Image : Type} (conn : xcb_connection_t) (n : Z) :
  (n ≤ 0 → select_screen conn n = head (roots conn))
  ∧ (0 ≤ n → select_screen conn n = roots conn !! Z.to_nat n)
  ∧ (Z.of_nat (length (roots conn)) ≤ n → select_screen conn n = None)
  ∧ (∀ env (c : X11Canvas Image) calls, construct env = Returns (c, calls) →
       (is_Some (screen c) ↔
        Z.max 0 (default_screen c) < Z.of_nat (length (roots (connection c))))).
Proof.
  assert (Hneg : ∀ conn n, n ≤ 0 → select_screen conn n = head (roots conn)).
  { intros conn' n' Hn. unfold select_screen. by rewrite walk_screens_stays. }
  assert (Hsome : ∀ conn n, is_Some (select_screen conn n) ↔
                            Z.max 0 n < Z.of_nat (length (roots conn))).
  { intros conn' n'. destruct (Z.le_gt_cases 0 n') as [Hn|Hn].
    - rewrite select_screen_default, lookup_lt_is_Some by done. lia.
    - rewrite Hneg, head_lookup, lookup_lt_is_Some by lia. lia. }
  split; [apply Hneg|]. split; [apply select_screen_default|]. split.
  - intros Hn. rewrite select_screen_default by lia. apply lookup_ge_None. lia.
  - intros env c calls Hc. rewrite (construct_screen env c calls Hc). apply Hsome.
Qed.

Section FurtherProperties.
Context {Image : Type} `{!ImageOps Image}.
Implicit Types (c : X11Canvas Image) (img : Image) (wid : xcb_window_t).

(** ** show and hide *)

Lemma WindowShow_inj : Inj (=) (=) WindowShow.
Proof. by intros ?? [= ->]. Qed.

Lemma WindowHide_inj : Inj (=) (=) WindowHide.
Proof. by intros ?? [= ->]. Qed.

(** X3: [show] calls [show()] once on every Window of the registry and
    makes no other call, [hide] does the same with [hide()]; on an empty
    registry, as before [init] and after [clear], both do nothing. *)
Theorem show_hide_reach_each_window_once c :
  (∀ wid, count_occ call_eq_dec (show c) (WindowShow wid)
          = if decide (wid ∈ dom (windows c)) then 1%nat else 0%nat)
  ∧ (∀ k, k ∈ show c → ∃ wid, k = WindowShow wid ∧ wid ∈ dom (windows c))
  ∧ (∀ wid, count_occ call_eq_dec (hide c) (WindowHide wid)
            = if decide (wid ∈ dom (windows c)) then 1%nat else 0%nat)
  ∧ (∀ k, k ∈ hide c → ∃ wid, k = WindowHide wid ∧ wid ∈ dom (windows c))
  ∧ length (show c) = size (windows c) ∧ length (hide c) = size (windows c)
  ∧ (windows c = ∅ → show c = [] ∧ hide c = []).
Proof.
  unfold show, hide. split; [|split; [|split; [|split; [|split; [|split]]]]].
  - intros wid. apply count_for_each_window, WindowShow_inj.
  - intros k Hk. by apply elem_of_for_each_window.
  - intros wid. apply count_for_each_window, WindowHide_inj.
  - intros k Hk. by apply elem_of_for_each_window.
  - unfold for_each_window. by rewrite length_fmap, length_map_to_list.
  - unfold for_each_window. by rewrite length_fmap, length_map_to_list.
  - intros Hempty. unfold for_each_window. by rewrite Hempty, map_to_list_empty.
Qed.

(** ** The event dispatcher *)

Lemma masked_type_sent_event (event : xcb_generic_event_t) :
  masked_type (sent_event event) = masked_type event.
Proof.
  unfold masked_type, sent_event; simpl.
  rewrite Z.land_lor_distr_l, Z.land_lnot_diag. apply Z.lor_0_r.
Qed.

(** X4: the dispatcher ignores the high bit of the type code: an event
    that carries it, as one delivered through SendEvent does, is handled
    exactly as the same event without it; and for a type code of one byte
    the code it switches on is the low seven bits. *)
Theorem handle_event_ignores_sent_bit c (event : xcb_generic_event_t) :
  handle_event c (sent_event event) = handle_event c event
  ∧ (0 ≤ response_type event < 256 →
     masked_type event = response_type event mod 128
     ∧ 0 ≤ masked_type event < 128).
Proof.
  split.
  - pose proof (masked_type_sent_event event) as Hm. unfold masked_type in Hm.
    unfold handle_event. rewrite Hm. done.
  - intros Hbyte. unfold masked_type, event_mask.
    assert (Hlow : Z.land (response_type event) (Z.lnot 128) = response_type event mod 128).
    { change 128 with (2 ^ 7) at 2. rewrite <- Z.land_ones by lia.
      apply Z.bits_inj'. intros n Hn.
      rewrite !Z.land_spec, Z.lnot_spec by done.
      destruct (Z.lt_ge_cases n 7) as [Hlt|Hge].
      - rewrite Z.ones_spec_low by lia.
        f_equal. change 128 with (2 ^ 7). rewrite Z.pow2_bits_false by lia. done.
      - rewrite Z.ones_spec_high by lia. rewrite andb_false_r.
        destruct (Z.eq_dec n 7) as [->|Hne].
        + change 128 with (2 ^ 7). rewrite Z.pow2_bits_true by lia. apply andb_false_r.
        + assert (Z.testbit (response_type event) n = false) as ->; [|done].
          apply (Z.bits_above_log2 (response_type event) n); [lia|].
          destruct (Z.eq_dec (response_type event) 0) as [->|Hnz]; [simpl; lia|].
          apply Z.log2_lt_pow2; [lia|].
          assert (2 ^ 8 ≤ 2 ^ n) by (apply Z.pow_le_mono_r; lia). lia. }
    rewrite Hlow. split; [done|]. apply Z.mod_pos_bound. lia.
Qed.

Lemma handle_event_trace c (event : xcb_generic_event_t) :
  ∃ logged,
    handle_event c event = Returns logged
    ∧ log_levels logged = [if masked_type event =? 0 then LvlError else LvlDebug]
    ∧ (∀ wid, WindowDraw wid ∈ logged ↔
              masked_type event = XCB_EXPOSE ∧ expose_window event = wid
              ∧ wid ∈ dom (windows c))
    ∧ (∀ k, k ∈ logged → (∃ lvl fmt args, k = Log lvl fmt args) ∨ ∃ wid, k = WindowDraw wid).
Proof.
  unfold handle_event, masked_type.
  destruct (Z.land (response_type event) (Z.lnot event_mask) =? 0) eqn:Herr.
  - destruct (xcb_errors_get_name_for_error _ _) as [error extension].
    eexists. split; [done|]. split; [done|]. apply Z.eqb_eq in Herr. split.
    + intros wid. split.
      * intros Hin. apply list_elem_of_singleton in Hin. done.
      * intros (Hexp & _). rewrite Herr in Hexp. done.
    + intros k Hk. apply list_elem_of_singleton in Hk. left. by eexists _, _, _.
  - destruct (Z.land (response_type event) (Z.lnot event_mask) =? XCB_EXPOSE) eqn:Hexp.
    + apply Z.eqb_eq in Hexp. unfold map_at.
      destruct (windows c !! expose_window event) as [win|] eqn:Hwin; simpl.
      * eexists. split; [done|]. split; [done|]. split.
        -- intros wid. rewrite elem_of_cons, list_elem_of_singleton. split.
           ++ intros [?|Heq]; [done|]. injection Heq as ->.
              split; [done|]. split; [done|]. apply elem_of_dom. by exists win.
           ++ intros (_ & <- & _). by right.
        -- intros k Hk. apply elem_of_cons in Hk as [Hk|Hk]; [left; by eexists _, _, _|].
           apply list_elem_of_singleton in Hk. right. by eexists.
      * eexists. split; [done|]. split; [done|]. split.
        -- intros wid. rewrite list_elem_of_singleton. split; [done|].
           intros (_ & <- & Hdom). apply elem_of_dom in Hdom as [w Hw]. congruence.
        -- intros k Hk. apply list_elem_of_singleton in Hk. left. by eexists _, _, _.
    + apply Z.eqb_neq in Hexp.
      eexists. split; [done|]. split; [done|]. split.
      * intros wid. rewrite list_elem_of_singleton. split; [done|]. by intros (? & _).
      * intros k Hk. apply list_elem_of_singleton in Hk. left. by eexists _, _, _.
Qed.

Lemma log_levels_app (l1 l2 : list call) :
  log_levels (l1 ++ l2) = log_levels l1 ++ log_levels l2.
Proof. unfold log_levels. apply omap_app. Qed.

(** X5: draining a queue never fails and logs one line per event, in the
    order of the queue, at error level for a protocol error and at debug
    level for anything else; apart from those lines it only redraws
    Windows, and it redraws a Window exactly when that Window is registered
    and the queue holds an Expose event for it. *)
Theorem drain_events_trace c (events : list xcb_generic_event_t) :
  ∃ logged,
    drain_events c events = Returns logged
    ∧ log_levels logged
      = (λ event, if masked_type event =? 0 then LvlError else LvlDebug) <$> events
    ∧ (∀ wid, WindowDraw wid ∈ logged ↔
              wid ∈ dom (windows c)
              ∧ ∃ event, event ∈ events ∧ masked_type event = XCB_EXPOSE
                         ∧ expose_window event = wid)
    ∧ (∀ k, k ∈ logged → (∃ lvl fmt args, k = Log lvl fmt args) ∨ ∃ wid, k = WindowDraw wid).
Proof.
  induction events as [|event rest (more & Hmore & Hlv & Hdraw & Honly)]; simpl.
  - exists []. split; [done|]. split; [done|]. split.
    + intros wid. split; [by intros ?%elem_of_nil|].
      intros (_ & event & Hin & _). by apply elem_of_nil in Hin.
    + by intros k ?%elem_of_nil.
  - destruct (handle_event_trace c event) as (logged & -> & Hlv1 & Hdraw1 & Honly1).
    rewrite Hmore. simpl. exists (logged ++ more). split; [done|]. split; [|split].
    + by rewrite log_levels_app, Hlv1, Hlv.
    + intros wid. rewrite elem_of_app, Hdraw1, Hdraw. split.
      * intros [(Hexp & Hw & Hdom)|(Hdom & ev & Hin & Hexp & Hw)].
        -- split; [done|]. exists event. split; [apply list_elem_of_here|done].
        -- split; [done|]. exists ev. split; [by apply list_elem_of_further|done].
      * intros (Hdom & ev & Hin & Hexp & Hw).
        apply elem_of_cons in Hin as [->|Hin]; [by left|right].
        split; [done|]. by exists ev.
    + intros k [?|?]%elem_of_app; [by apply Honly1|by apply Honly].
Qed.

Lemma handle_events_until_stop (stop_flag_ : bool) c
    (pre post : list wake) (ready : bool) (events : list xcb_generic_event_t) :
  ∃ logged status,
    handle_events stop_flag_ c pre = Returns (logged, status)
    ∧ handle_events stop_flag_ c
        (pre ++ {| before := RaiseStop; data_ready := ready; queue := events |} :: post)
      = Returns (logged, LoopExited).
Proof.
  revert stop_flag_ c. induction pre as [|w pre IH]; intros stop c; simpl.
  - by eexists _, _.
  - destruct (interfere_stop (before w) stop); [by eexists _, _|].
    destruct (negb (data_ready w)); [apply IH|].
    destruct (drain_events_returns (interfere_canvas (before w) c) (queue w)) as [l ->].
    destruct (IH false (interfere_canvas (before w) c)) as (logged & status & -> & ->).
    by eexists _, _.
Qed.

(** X6: the dispatcher leaves its loop at the first wake at which it reads
    the stop signal as raised, before anything of that wake is polled: what
    it has logged is what the wakes before gave, and neither the events
    queued at that wake nor any later wake is looked at. With the signal
    already raised it handles nothing at all. *)
Theorem handle_events_stop_drops_the_rest (stop_flag_ : bool) c
    (pre post : list wake) (ready : bool) (events : list xcb_generic_event_t) :
  (∃ logged status,
     handle_events stop_flag_ c pre = Returns (logged, status)
     ∧ handle_events stop_flag_ c
         (pre ++ {| before := RaiseStop; data_ready := ready; queue := events |} :: post)
       = Returns (logged, LoopExited))
  ∧ handle_events true c
      ({| before := Quiet; data_ready := ready; queue := events |} :: post)
    = Returns ([], LoopExited).
Proof.
  split; [apply handle_events_until_stop|done].
Qed.

(** ** The destructor *)

Lemma join_keeps_waiting (patience : nat) c :
  draw_thread c = Looping → can_draw c = true → is_Some (image c) →
  join patience c = Hangs.
Proof.
  intros Ht Hflag Himg. unfold join. rewrite Ht.
  destruct (draw_thread_loop_keeps_looping (replicate patience Quiet) c Hflag Himg)
    as (c' & calls & -> & _); [|done].
  intros Hin. apply elem_of_replicate in Hin as [Heq _]. done.
Qed.

(** X7: a canvas destroyed while its draw thread is animating, that is
    with no [clear] before, never finishes its destructor: whatever the
    stop signal does and however long it waits, the join on the draw thread
    does not return, because nothing lowers [can_draw]. *)
Theorem destructor_hangs_on_live_animation
    (stop_flag_ : bool) (wakes : list wake) (patience : nat) c :
  draw_thread c = Looping → can_draw c = true → is_Some (image c) →
  destructor stop_flag_ wakes patience c = Hangs.
Proof.
  intros Ht Hflag Himg. unfold destructor.
  destruct (event_handler c) eqn:He; simpl.
  - rewrite Ht. simpl. by rewrite join_keeps_waiting.
  - unfold join_event_handler. rewrite He.
    destruct (handle_events_returns stop_flag_ c wakes) as (logged & status & ->). simpl.
    destruct status; [done|]. simpl. rewrite Ht. simpl.
    by rewrite join_keeps_waiting.
  - unfold join_event_handler. rewrite He. simpl. rewrite Ht. simpl.
    by rewrite join_keeps_waiting.
Qed.

Lemma clear_result patience c c1 (frames : list call) :
  clear patience c = Returns (c1, frames) →
  windows c1 = ∅ ∧ image c1 = None ∧ can_draw c1 = true ∧ draw_thread c1 = NoThread
  ∧ event_handler c1 = event_handler c ∧ connection c1 = connection c
  ∧ xids_issued c1 = xids_issued c.
Proof.
  unfold clear. destruct (draw_thread c) eqn:Ht; simpl; rewrite ?Ht; simpl.
  - intros [= <- _]. simpl. by rewrite Ht.
  - unfold join; simpl. rewrite Ht. destruct patience as [|p]; simpl; [done|].
    by intros [= <- _].
  - unfold join; simpl. rewrite Ht. by intros [= <- _].
Qed.

(** X8: after a [clear] the destructor returns as soon as the stop signal
    is raised: the event handler leaves its loop at that wake, logs its
    closing line last, and no join on a draw thread is left to wait for.
    Without the stop signal it waits for ever. *)
Theorem destructor_returns_after_clear patience c c1 (frames : list call) :
  clear patience c = Returns (c1, frames) →
  event_handler c = Looping →
  (∀ pre post ready events patience',
     ∃ logged,
       destructor false
         (pre ++ {| before := RaiseStop; data_ready := ready; queue := events |} :: post)
         patience' c1
       = Returns (logged ++ [Log LvlDebug "Stopped event handler" []])
       ∧ ∃ status, handle_events false c1 pre = Returns (logged, status))
  ∧ (∀ wakes patience',
       (∀ w, w ∈ wakes → before w ≠ RaiseStop) →
       destructor false wakes patience' c1 = Hangs).
Proof.
  intros Hclear He.
  apply clear_result in Hclear as (_ & _ & _ & Ht & He1 & _).
  rewrite He in He1. split.
  - intros pre post ready events patience'.
    destruct (handle_events_until_stop false c1 pre post ready events)
      as (logged & status & Hpre & Hall).
    exists logged. split; [|by exists status].
    unfold destructor, join_event_handler. rewrite He1. simpl. rewrite Hall. simpl.
    rewrite Ht. simpl. by rewrite app_nil_r.
  - intros wakes patience' Hquiet.
    unfold destructor, join_event_handler. rewrite He1. simpl.
    destruct (handle_events_returns false c1 wakes) as (logged & status & Hret).
    rewrite Hret. simpl. destruct status; [done|].
    apply handle_events_stops in Hret as [?|(w & Hin & Hb)]; [done|].
    by destruct (Hquiet w Hin).
Qed.

(** ** The animated draw policy *)

(** X9: for an animated image [draw] spawns the draw thread when the canvas
    has none and calls [std::terminate] when it has one, so a second [draw]
    with no [clear] in between terminates the process; after a [clear] and
    a new [init] with an animated image, [draw] spawns a thread again, with
    the flag it tests set. *)
Theorem animated_draw_spawns_once c img :
  image c = Some img → is_animated img = true →
  (draw c = Terminates ↔ draw_thread c ≠ NoThread)
  ∧ (draw_thread c = NoThread →
     draw c = Returns (with_draw_thread Looping c, [SpawnThread "draw_thread"])
     ∧ draw (with_draw_thread Looping c) = Terminates
     ∧ ∀ patience c2 frames os dims img2 c3 calls,
         clear patience (with_draw_thread Looping c) = Returns (c2, frames) →
         init os dims (Some img2) c2 = Returns (c3, calls) →
         is_animated img2 = true →
         draw c3 = Returns (with_draw_thread Looping c3, [SpawnThread "draw_thread"])
         ∧ can_draw c3 = true).
Proof.
  intros Himg Hanim.
  assert (Hdraw : ∀ x i, image x = Some i → is_animated i = true →
            draw x = if joinable (draw_thread x) then Terminates
                     else Returns (with_draw_thread Looping x, [SpawnThread "draw_thread"])).
  { intros x i Hi Ha. unfold draw. by rewrite Hi, Ha. }
  split.
  - rewrite (Hdraw c img) by done. by destruct (draw_thread c).
  - intros Ht. split; [|split].
    + rewrite (Hdraw c img) by done. by rewrite Ht.
    + by rewrite (Hdraw _ img).
    + intros patience c2 frames os dims img2 c3 calls Hclear Hinit Hanim2.
      apply clear_result in Hclear as (_ & _ & Hflag & Ht2 & _).
      apply init_returns in Hinit as (i & [= <-] & Hi & Hflag3 & Ht3 & _).
      rewrite (Hdraw c3 img2) by done. rewrite Ht3, Ht2. simpl.
      split; [done|congruence].
Qed.

Lemma sleeps_app (l1 l2 : list call) : sleeps (l1 ++ l2) = sleeps l1 ++ sleeps l2.
Proof. unfold sleeps. apply omap_app. Qed.

Lemma sleeps_for_each_window c : sleeps (for_each_window GenerateFrame c) = [].
Proof.
  unfold for_each_window, sleeps.
  induction (map_to_list (windows c)) as [|entry l IH]; [done|]. simpl. exact IH.
Qed.

(** X10: left alone for n turns, the draw thread renders every Window of
    the registry n times, leaves the image n frames further, and after each
    advance sleeps for the delay of the frame it has just advanced to, not
    of the frame it has just rendered; it is still looping afterwards. *)
Theorem draw_thread_loop_turns (schedule : list interference) c img :
  can_draw c = true → image c = Some img → LowerCanDraw ∉ schedule →
  ∃ calls,
    draw_thread_loop schedule c
    = Returns (with_image (Some (Nat.iter (length schedule) next_frame img)) c,
               calls, StillLooping)
    ∧ (∀ wid, count_occ call_eq_dec calls (GenerateFrame wid)
              = if decide (wid ∈ dom (windows c)) then length schedule else 0%nat)
    ∧ sleeps calls
      = (λ k, frame_delay (Nat.iter (S k) next_frame img)) <$> seq 0 (length schedule).
Proof.
  assert (Hit : ∀ n x, Nat.iter n next_frame (next_frame x)
                       = next_frame (Nat.iter n next_frame x)).
  { induction n as [|n IHn]; intros x; simpl; [done|]. by rewrite IHn. }
  revert c img. induction schedule as [|i rest IH]; intros c img Hflag Himg Hquiet.
  - exists []. simpl. split; [|split; [|done]].
    + destruct c; simpl in *. by rewrite Himg.
    + intros wid. by destruct (decide _).
  - assert (interfere_canvas i c = c) as Hi.
    { destruct i; try done. destruct Hquiet. apply list_elem_of_here. }
    destruct (IH (with_image (Some (next_frame img)) c) (next_frame img))
      as (more & Hloop & Hcount & Hsleeps); [done|done| |].
    { intros Hin. apply Hquiet. by apply list_elem_of_further. }
    exists ((for_each_window GenerateFrame c
             ++ [NextFrame; SleepFor (frame_delay (next_frame img))]) ++ more).
    split; [|split].
    + cbn [draw_thread_loop]. rewrite Hi, Hflag.
      unfold draw_thread_body. rewrite Himg. simpl. rewrite Hloop. simpl.
      by rewrite Hit.
    + intros wid. rewrite !count_occ_app, Hcount.
      rewrite (count_for_each_window GenerateFrame c wid GenerateFrame_inj). simpl.
      destruct (decide (wid ∈ dom (windows c))); simpl; lia.
    + rewrite !sleeps_app, sleeps_for_each_window, Hsleeps. simpl.
      f_equal. rewrite <- fmap_S_seq, <- list_fmap_compose.
      apply list_fmap_ext. intros _ k _. simpl. by rewrite Hit.
Qed.

(** ** The registry and the ids of the connection *)

Lemma lookup_map_insert_new_inv {V} (m : gmap xcb_window_t V) (k k' : xcb_window_t) (v v' : V) :
  map_insert_new k v m !! k' = Some v' →
  m !! k' = Some v' ∨ (k' = k ∧ v' = v ∧ m !! k = None).
Proof.
  unfold map_insert_new. destruct (m !! k) eqn:Hk; [by left|].
  destruct (decide (k = k')) as [<-|Hne].
  - rewrite lookup_insert_eq. intros [= <-]. by right.
  - rewrite lookup_insert_ne by done. by left.
Qed.

(** Where the entries of the registry come from after the loop of [init]. *)
Lemma create_windows_keys dims (parents : list xcb_window_t) c :
  connection (foldl (create_window dims) c parents) = connection c
  ∧ xids_issued (foldl (create_window dims) c parents)
    = (xids_issued c + length parents)%nat
  ∧ ∀ k (w : X11Window),
      windows (foldl (create_window dims) c parents) !! k = Some w →
      windows c !! k = Some w
      ∨ (win_id w = k ∧ win_parent w ∈ parents ∧ win_dimensions w = dims
         ∧ ∃ n, (xids_issued c ≤ n < xids_issued c + length parents)%nat
                ∧ k = xid (connection c) n).
Proof.
  revert c. induction parents as [|p parents IH]; intros c; simpl.
  - split; [done|]. split; [lia|]. intros k w Hw. by left.
  - destruct (IH (create_window dims c p)) as (Hconn & Hids & Hkeys).
    split; [by rewrite Hconn|]. split; [rewrite Hids; simpl; lia|].
    intros k w Hw. apply Hkeys in Hw as [Hw|(Hid & Hp & Hd & n & Hn & Hk)].
    + unfold create_window in Hw; simpl in Hw.
      apply lookup_map_insert_new_inv in Hw as [Hw|(-> & -> & _)]; [by left|].
      right. simpl. split; [done|]. split; [apply list_elem_of_here|]. split; [done|].
      exists (xids_issued c). split; [lia|done].
    + right. split; [done|]. split; [by apply list_elem_of_further|]. split; [done|].
      exists n. simpl in Hn. split; [lia|done].
Qed.

(** X11: every entry of the registry is a Window stored under its own id,
    and that id is one the connection has issued: this holds for a canvas
    just constructed and is kept by [init], which consumes exactly one id
    per target window, by [draw] and by [clear], which gives no id back. *)
Theorem registry_keys_are_issued_ids c :
  let consistent (x : X11Canvas Image) :=
    ∀ k (w : X11Window), windows x !! k = Some w →
      win_id w = k ∧ ∃ n, (n < xids_issued x)%nat ∧ k = xid (connection x) n in
  (∀ env calls, construct env = Returns (c, calls) → consistent c)
  ∧ (consistent c →
     (∀ os dims (new_image : option Image) c' calls,
        init os dims new_image c = Returns (c', calls) →
        consistent c'
        ∧ xids_issued c'
          = (xids_issued c
             + size (get_tmux_window_ids os {[ x11_wid (terminal dims) ]}))%nat)
     ∧ (∀ c' calls, draw c = Returns (c', calls) → consistent c')
     ∧ (∀ patience c' calls, clear patience c = Returns (c', calls) →
          consistent c' ∧ xids_issued c' = xids_issued c)).
Proof.
  simpl. split.
  - intros env calls Hc k w Hw.
    apply constructed_canvas_is_fresh in Hc as (Hempty & _).
    by rewrite Hempty, lookup_empty in Hw.
  - intros Hwf. split; [|split].
    + intros os dims new_image c' calls. unfold init.
      destruct new_image as [img|]; [|done]. intros [= <- _].
      destruct (create_windows_keys dims
                  (elements (get_tmux_window_ids os {[x11_wid (terminal dims)]}))
                  (with_image (Some img) c)) as (Hconn & Hids & Hkeys).
      split; [|by rewrite Hids].
      intros k w Hw. rewrite Hconn, Hids. simpl.
      apply Hkeys in Hw as [Hw|(Hid & _ & _ & n & Hn & Hk)].
      * destruct (Hwf k w Hw) as (Hid & n & Hn & Hk). split; [done|].
        exists n. split; [lia|done].
      * split; [done|]. exists n. simpl in Hn. split; [lia|done].
    + intros c' calls. unfold draw. destruct (image c) as [img|]; [|done].
      destruct (negb (is_animated img)); [by intros [= <- _]|].
      destruct (joinable (draw_thread c)); [done|]. by intros [= <- _].
    + intros patience c' calls Hclear.
      apply clear_result in Hclear as (Hempty & _ & _ & _ & _ & _ & Hids).
      split; [|done]. intros k w Hw. by rewrite Hempty, lookup_empty in Hw.
Qed.

Lemma create_windows_fresh dims (parents : list xcb_window_t) c :
  Inj (=) (=) (xid (connection c)) →
  (∀ k, is_Some (windows c !! k) → ∃ n, (n < xids_issued c)%nat ∧ k = xid (connection c) n) →
  size (windows (foldl (create_window dims) c parents))
  = (size (windows c) + length parents)%nat
  ∧ ∀ p, p ∈ parents →
      ∃ k (w : X11Window),
        windows (foldl (create_window dims) c parents) !! k = Some w
        ∧ windows c !! k = None ∧ win_parent w = p.
Proof.
  revert c. induction parents as [|p parents IH]; intros c Hinj Hissued; simpl.
  - split; [lia|]. by intros p ?%elem_of_nil.
  - set (k0 := xid (connection c) (xids_issued c)).
    set (w0 := {| win_id := k0; win_parent := p; win_dimensions := dims |}).
    assert (Hnew : windows c !! k0 = None).
    { destruct (windows c !! k0) as [w|] eqn:Hk; [|done].
      destruct (Hissued k0) as (n & Hn & Heq); [by rewrite Hk|].
      apply Hinj in Heq. lia. }
    assert (Hc1 : windows (create_window dims c p) = <[k0 := w0]> (windows c)).
    { unfold create_window; simpl. unfold map_insert_new. fold k0. by rewrite Hnew. }
    destruct (IH (create_window dims c p)) as (Hsize & Hwin).
    { done. }
    { intros k Hk. rewrite Hc1 in Hk. simpl.
      destruct (decide (k = k0)) as [->|Hne].
      - exists (xids_issued c). split; [lia|done].
      - rewrite lookup_insert_ne in Hk by done.
        destruct (Hissued k Hk) as (n & Hn & Heq). exists n. split; [lia|done]. }
    split.
    + rewrite Hsize, Hc1, map_size_insert_None by done. lia.
    + intros q Hq. apply elem_of_cons in Hq as [->|Hq].
      * exists k0, w0. split; [|done].
        apply create_windows_keep. rewrite Hc1. apply lookup_insert_eq.
      * destruct (Hwin q Hq) as (k & w & Hk & Hfresh & Hp).
        exists k, w. split; [done|]. split; [|done].
        rewrite Hc1 in Hfresh. destruct (decide (k = k0)) as [->|Hne].
        -- by rewrite lookup_insert_eq in Hfresh.
        -- by rewrite lookup_insert_ne in Hfresh.
Qed.

(** X12: when the connection never issues an id twice and every key of the
    registry is an id it has issued, [init] adds exactly one Window per
    target window: the registry grows by the size of the target set, every
    target is the parent of a Window that was not there before, and every
    Window that was not there before has a target as its parent, the given
    dimensions and its own id as key. *)
Theorem init_creates_one_window_per_target os dims img c c' (calls : list call) :
  Inj (=) (=) (xid (connection c)) →
  (∀ k, is_Some (windows c !! k) → ∃ n, (n < xids_issued c)%nat ∧ k = xid (connection c) n) →
  init os dims (Some img) c = Returns (c', calls) →
  let targets := get_tmux_window_ids os {[ x11_wid (terminal dims) ]} in
  size (windows c') = (size (windows c) + size targets)%nat
  ∧ (∀ p, p ∈ targets →
       ∃ k (w : X11Window), windows c' !! k = Some w ∧ windows c !! k = None
                            ∧ win_parent w = p)
  ∧ (∀ k (w : X11Window), windows c' !! k = Some w → windows c !! k = None →
       win_parent w ∈ targets ∧ win_dimensions w = dims ∧ win_id w = k).
Proof.
  intros Hinj Hissued. unfold init. intros [= <- _]. simpl.
  destruct (create_windows_fresh dims
              (elements (get_tmux_window_ids os {[x11_wid (terminal dims)]}))
              (with_image (Some img) c) Hinj Hissued) as (Hsize & Hwin).
  destruct (create_windows_keys dims
              (elements (get_tmux_window_ids os {[x11_wid (terminal dims)]}))
              (with_image (Some img) c)) as (_ & _ & Hkeys).
  split; [done|]. split.
  - intros p Hp. apply Hwin. by apply elem_of_elements.
  - intros k w Hw Hold. apply Hkeys in Hw as [Hw|(Hid & Hp & Hd & _)].
    + simpl in Hw. congruence.
    + split; [by apply elem_of_elements|done].
Qed.

(** X13: ids are not used again: under the same two conditions, after a
    [clear] and a new [init] no Window of the old registry is registered,
    so an Expose event that still names one is a miss and redraws
    nothing. *)
Theorem cleared_window_ids_stay_unknown patience os dims img c c1 c2
    (frames calls : list call) :
  Inj (=) (=) (xid (connection c)) →
  (∀ k, is_Some (windows c !! k) → ∃ n, (n < xids_issued c)%nat ∧ k = xid (connection c) n) →
  clear patience c = Returns (c1, frames) →
  init os dims (Some img) c1 = Returns (c2, calls) →
  ∀ k, k ∈ dom (windows c) →
    windows c2 !! k = None
    ∧ ∀ event, masked_type event = XCB_EXPOSE → expose_window event = k →
        handle_event c2 event
        = Returns [Log LvlDebug "Received expose event for window {}"
                     [ArgNum (Z.of_N k)]].
Proof.
  intros Hinj Hissued Hclear Hinit k Hk.
  apply clear_result in Hclear as (Hempty & _ & _ & _ & _ & Hconn & Hids).
  assert (Hmiss : windows c2 !! k = None).
  { destruct (windows c2 !! k) as [w|] eqn:Hw; [|done]. exfalso.
    unfold init in Hinit. injection Hinit as <- _.
    destruct (create_windows_keys dims
                (elements (get_tmux_window_ids os {[x11_wid (terminal dims)]}))
                (with_image (Some img) c1)) as (_ & _ & Hkeys).
    apply Hkeys in Hw as [Hw|(_ & _ & _ & n & Hn & Heq)].
    - simpl in Hw. by rewrite Hempty, lookup_empty in Hw.
    - simpl in Hn, Heq. rewrite Hconn in Heq. rewrite Hids in Hn.
      apply elem_of_dom in Hk. destruct (Hissued k Hk) as (m & Hm & Heq').
      rewrite Heq' in Heq. apply Hinj in Heq. lia. }
  split; [done|]. intros event Htype <-.
  unfold handle_event. unfold masked_type in Htype. rewrite Htype. simpl.
  unfold map_at. by rewrite Hmiss.
Qed.

End FurtherProperties.

(** ** The further properties at the concrete world *)

Lemma sample_xid_inj : Inj (=) (=) (xid sample_connection).
Proof. intros a b Heq. simpl in Heq. lia. Qed.

Lemma destructor_hangs_witness :
  draw_thread animating_canvas = Looping
  ∧ can_draw animating_canvas = true
  ∧ is_Some (image animating_canvas)
  ∧ destructor true sample_wakes 5 animating_canvas = Hangs.
Proof.
  assert (Ht : draw_thread animating_canvas = Looping) by reflexivity.
  assert (Hflag : can_draw animating_canvas = true) by reflexivity.
  assert (Himg : is_Some (image animating_canvas)) by (by eexists).
  exact (conj Ht (conj Hflag (conj Himg
           (destructor_hangs_on_live_animation true sample_wakes 5 animating_canvas
              Ht Hflag Himg)))).
Defined.

Lemma destructor_returns_witness :
  clear 1 animating_canvas = Returns (cleared_canvas, [])
  ∧ event_handler animating_canvas = Looping
  ∧ ∃ logged,
      destructor false sample_wakes 0 cleared_canvas
      = Returns (logged ++ [Log LvlDebug "Stopped event handler" []])
      ∧ ∃ status, handle_events false cleared_canvas (take 2 sample_wakes)
                  = Returns (logged, status).
Proof.
  assert (Hclear : clear 1 animating_canvas = Returns (cleared_canvas, []))
    by (vm_compute; reflexivity).
  assert (He : event_handler animating_canvas = Looping) by reflexivity.
  split; [exact Hclear|]. split; [exact He|].
  exact (proj1 (destructor_returns_after_clear 1 animating_canvas cleared_canvas []
                  Hclear He)
           (take 2 sample_wakes) (drop 3 sample_wakes) true [live_expose_event] 0%nat).
Defined.

Lemma animated_draw_spawns_once_witness :
  image animated_canvas = Some animated_image
  ∧ is_animated animated_image = true
  ∧ draw animated_canvas
    = Returns (with_draw_thread Looping animated_canvas, [SpawnThread "draw_thread"])
  ∧ draw (with_draw_thread Looping animated_canvas) = Terminates.
Proof.
  assert (Himg : image animated_canvas = Some animated_image) by reflexivity.
  assert (Hanim : is_animated animated_image = true) by reflexivity.
  destruct (animated_draw_spawns_once animated_canvas animated_image Himg Hanim)
    as (_ & Hspawn).
  destruct (Hspawn eq_refl) as (Hfirst & Hsecond & _).
  exact (conj Himg (conj Hanim (conj Hfirst Hsecond))).
Defined.

Lemma draw_thread_loop_turns_witness :
  can_draw animating_canvas = true
  ∧ image animating_canvas = Some animated_image
  ∧ (LowerCanDraw ∉ [Quiet; RaiseStop; Quiet])
  ∧ ∃ calls,
      (draw_thread_loop [Quiet; RaiseStop; Quiet] animating_canvas
       = Returns (with_image (Some (Nat.iter 3 next_frame animated_image))
                    animating_canvas, calls, StillLooping))
      ∧ (∀ wid, count_occ call_eq_dec calls (GenerateFrame wid)
                = if decide (wid ∈ dom (windows animating_canvas)) then 3%nat else 0%nat)
      ∧ sleeps calls = [40; 80; 40].
Proof.
  assert (Hflag : can_draw animating_canvas = true) by reflexivity.
  assert (Himg : image animating_canvas = Some animated_image) by reflexivity.
  assert (Hquiet : LowerCanDraw ∉ [Quiet; RaiseStop; Quiet]).
  { intros Hin. repeat (apply elem_of_cons in Hin as [Hin|Hin]; [discriminate Hin|]).
    by apply elem_of_nil in Hin. }
  exact (conj Hflag (conj Himg (conj Hquiet
           (draw_thread_loop_turns [Quiet; RaiseStop; Quiet] animating_canvas
              animated_image Hflag Himg Hquiet)))).
Defined.

Lemma init_creates_one_window_per_target_witness :
  init sample_tmux sample_dimensions (Some still_image) fresh_canvas
  = Returns (still_canvas, [Log LvlDebug "Initializing canvas" []])
  ∧ size (windows still_canvas)
    = (size (windows fresh_canvas)
       + size (get_tmux_window_ids sample_tmux {[ x11_wid (terminal sample_dimensions) ]}))%nat
  ∧ size (windows still_canvas) = 3%nat.
Proof.
  assert (Hinit : init sample_tmux sample_dimensions (Some still_image) fresh_canvas
                  = Returns (still_canvas, [Log LvlDebug "Initializing canvas" []]))
    by (vm_compute; reflexivity).
  assert (Hissued : ∀ k, is_Some (windows fresh_canvas !! k) →
            ∃ n, (n < xids_issued fresh_canvas)%nat ∧ k = xid (connection fresh_canvas) n).
  { intros k [w Hw]. change (windows fresh_canvas) with (∅ : gmap xcb_window_t X11Window) in Hw.
    by rewrite lookup_empty in Hw. }
  split; [exact Hinit|]. split; [|vm_compute; reflexivity].
  exact (proj1 (init_creates_one_window_per_target sample_tmux sample_dimensions
                  still_image fresh_canvas still_canvas _ sample_xid_inj Hissued Hinit)).
Defined.

Lemma cleared_window_ids_stay_unknown_witness :
  clear 0 still_canvas = Returns (canvas_of (clear 0 still_canvas) blank_canvas, [])
  ∧ init no_tmux sample_dimensions (Some animated_image)
      (canvas_of (clear 0 still_canvas) blank_canvas)
    = Returns (restarted_canvas, [Log LvlDebug "Initializing canvas" []])
  ∧ 0x2400000%N ∈ dom (windows still_canvas)
  ∧ windows restarted_canvas !! 0x2400000%N = None
  ∧ size (windows restarted_canvas) = 1%nat.
Proof.
  assert (Hclear : clear 0 still_canvas
                   = Returns (canvas_of (clear 0 still_canvas) blank_canvas, []))
    by (vm_compute; reflexivity).
  assert (Hinit : init no_tmux sample_dimensions (Some animated_image)
                    (canvas_of (clear 0 still_canvas) blank_canvas)
                  = Returns (restarted_canvas, [Log LvlDebug "Initializing canvas" []]))
    by (vm_compute; reflexivity).
  assert (Hdom : dom (windows still_canvas)
                 = ({[ 0x2400000; 0x2400001; 0x2400002 ]} : gset xcb_window_t)%N)
    by (vm_compute; reflexivity).
  assert (Hk : 0x2400000%N ∈ dom (windows still_canvas)).
  { rewrite Hdom. apply elem_of_union_l, elem_of_union_l. by apply elem_of_singleton. }
  assert (Hissued : ∀ k, is_Some (windows still_canvas !! k) →
            ∃ n, (n < xids_issued still_canvas)%nat ∧ k = xid (connection still_canvas) n).
  { intros k Hin. apply elem_of_dom in Hin. rewrite Hdom in Hin.
    apply elem_of_union in Hin as [Hin|Hin]; [apply elem_of_union in Hin as [Hin|Hin]|];
      apply elem_of_singleton in Hin as ->.
    - exists 0%nat. split; [vm_compute; lia|reflexivity].
    - exists 1%nat. split; [vm_compute; lia|reflexivity].
    - exists 2%nat. split; [vm_compute; lia|reflexivity]. }
  split; [exact Hclear|]. split; [exact Hinit|]. split; [exact Hk|].
  split; [|vm_compute; reflexivity].
  exact (proj1 (cleared_window_ids_stay_unknown 0 no_tmux sample_dimensions animated_image
                  still_canvas _ restarted_canvas [] _ sample_xid_inj Hissued Hclear Hinit
                  _ Hk)).
Defined.
